(** * YouTube playlist downloader: the orchestration core, verified

    A shallow embedding of [youtube_downloader_optimized.py]: the video
    record, the playlist analyzer, the progress callback, the control
    surface (pause / resume / cancel), the per-item download, the
    sequential download-all loop and the configuration store.

    Conventions of the embedding.
    - Python values that flow through dictionaries are [pyval]s: [None],
      booleans, ints and strings.  A [dict] with string keys is a
      [gmap string pyval]; [d.get(k, x)] is [dict_get d k x] and [d[k]]
      may raise [KeyError].  Operations on values of the wrong type raise
      [TypeError] as in Python.
    - Byte counts are Python ints ([PyInt]); float-valued estimates are
      outside the model.  The float an item's [progress] receives is kept
      as the expression that computes it ([Percent a b] for
      [(a / b) * 100]), so that nothing is said about its rounding; the
      [OverflowError] of [a / b] is modelled.  The value of the overall
      progress bar is the exact rational ([Q]) of its expression.
    - [self.videos] is a [list VideoItem]; the worker thread refers to the
      item it downloads by its position in that list, which is how the
      shared, mutable object is seen by both threads.
    - The worker thread and the UI thread interleave at the calls of the
      progress callback and at the sleeps of its pause loop; a handler of
      the control surface runs as one step.
    - Of the widgets, the model keeps the identifiers of the rows of the
      tree view, which the tree may refuse, and the value given to the
      overall progress bar; labels and buttons are left out.  Of the
      options passed to the download capability it keeps the output
      template, which cannot be built from a folder that is not a
      string.
    - The disk is a map from file names to contents, with the way a
      write ends on it. *)

From Stdlib Require Import ZArith QArith String List Lia DecimalString.
From stdpp Require Import base gmap strings list.

Open Scope string_scope.
Open Scope nat_scope.
Open Scope list_scope.
Open Scope stdpp_scope.

(** ** Python values *)

Inductive pyval :=
| PyNone
| PyBool (b : bool)
| PyInt (z : Z)
| PyStr (s : string).

#[global] Instance pyval_eq_dec : EqDecision pyval.
Proof. solve_decision. Defined.

Abbreviation pydict := (gmap string pyval).

(** [bool(v)] *)
Definition truthy (v : pyval) : bool :=
  match v with
  | PyNone => false
  | PyBool b => b
  | PyInt z => negb (z =? 0)%Z
  | PyStr s => negb (String.eqb s "")
  end.

(** [bool(d)] for a dictionary: empty dictionaries are false. *)
Definition truthy_dict (d : pydict) : bool := negb (bool_decide (d = ∅)).

(** [a or b] *)
Definition py_or (a b : pyval) : pyval := if truthy a then a else b.

(** [d.get(k, x)] *)
Definition dict_get (d : pydict) (k : string) (x : pyval) : pyval :=
  default x (d !! k).

(** [str(v)] and the [{v}] of an f-string. *)
Definition py_str (v : pyval) : string :=
  match v with
  | PyNone => "None"
  | PyBool true => "True"
  | PyBool false => "False"
  | PyInt z => NilZero.string_of_int (Z.to_int z)
  | PyStr s => s
  end.

Definition str_of_nat (n : nat) : string := py_str (PyInt (Z.of_nat n)).

(** [type(v).__name__], as it appears in the text of a [TypeError]. *)
Definition type_name (v : pyval) : string :=
  match v with
  | PyNone => "NoneType"
  | PyBool _ => "bool"
  | PyInt _ => "int"
  | PyStr _ => "str"
  end.

(** ** Exceptions

    Every exception below is a subclass of [Exception], so the handlers
    [except Exception as e] of the program catch all of them. *)

Inductive exn :=
| Exception (msg : string)
| KeyError (key : string)
| TypeError (msg : string)
| AttributeError (msg : string)
| DownloadError (msg : string)
| OverflowError (msg : string)
| TclError (msg : string).

(** [str(e)] *)
Definition exn_str (e : exn) : string :=
  match e with
  | Exception msg => msg
  | KeyError key => "'" +:+ key +:+ "'"
  | TypeError msg => msg
  | AttributeError msg => msg
  | DownloadError msg => msg
  | OverflowError msg => msg
  | TclError msg => msg
  end.

(** ** The video record *)

(** What [progress] holds: an int ([0] at creation, [100] when the
    download has finished), or the float that [(a / b) * 100] evaluates
    to for the ints [a] and [b]. *)
Inductive pynum :=
| NumInt (z : Z)
| Percent (a b : Z).

Record VideoItem := mkVideoItem {
  video_id : pyval;
  title : pyval;
  url : pyval;
  duration : pyval;
  thumbnail : pyval;
  progress : pynum;
  status : string;
  speed : pyval;
  eta : pyval;
  filesize : pyval;
  downloaded_bytes : pyval;
  error_message : string;
  output_filename : pyval;
  is_paused : bool;
  is_cancelled : bool
}.

(** [VideoItem.__init__] *)
Definition new_VideoItem (vid ttl u dur thumb : pyval) : VideoItem :=
  {| video_id := vid; title := ttl; url := u; duration := dur;
     thumbnail := thumb;
     progress := NumInt 0; status := "pending"; speed := PyStr ""; eta := PyStr "";
     filesize := PyInt 0; downloaded_bytes := PyInt 0;
     error_message := ""; output_filename := PyStr "";
     is_paused := false; is_cancelled := false |}.

(** Attribute assignments [video_item.f = x]. *)
Definition set_progress (x : pynum) (v : VideoItem) : VideoItem :=
  mkVideoItem (video_id v) (title v) (url v) (duration v) (thumbnail v)
    x (status v) (speed v) (eta v) (filesize v) (downloaded_bytes v)
    (error_message v) (output_filename v) (is_paused v) (is_cancelled v).

Definition set_status (x : string) (v : VideoItem) : VideoItem :=
  mkVideoItem (video_id v) (title v) (url v) (duration v) (thumbnail v)
    (progress v) x (speed v) (eta v) (filesize v) (downloaded_bytes v)
    (error_message v) (output_filename v) (is_paused v) (is_cancelled v).

Definition set_speed (x : pyval) (v : VideoItem) : VideoItem :=
  mkVideoItem (video_id v) (title v) (url v) (duration v) (thumbnail v)
    (progress v) (status v) x (eta v) (filesize v) (downloaded_bytes v)
    (error_message v) (output_filename v) (is_paused v) (is_cancelled v).

Definition set_eta (x : pyval) (v : VideoItem) : VideoItem :=
  mkVideoItem (video_id v) (title v) (url v) (duration v) (thumbnail v)
    (progress v) (status v) (speed v) x (filesize v) (downloaded_bytes v)
    (error_message v) (output_filename v) (is_paused v) (is_cancelled v).

Definition set_filesize (x : pyval) (v : VideoItem) : VideoItem :=
  mkVideoItem (video_id v) (title v) (url v) (duration v) (thumbnail v)
    (progress v) (status v) (speed v) (eta v) x (downloaded_bytes v)
    (error_message v) (output_filename v) (is_paused v) (is_cancelled v).

Definition set_downloaded_bytes (x : pyval) (v : VideoItem) : VideoItem :=
  mkVideoItem (video_id v) (title v) (url v) (duration v) (thumbnail v)
    (progress v) (status v) (speed v) (eta v) (filesize v) x
    (error_message v) (output_filename v) (is_paused v) (is_cancelled v).

Definition set_error_message (x : string) (v : VideoItem) : VideoItem :=
  mkVideoItem (video_id v) (title v) (url v) (duration v) (thumbnail v)
    (progress v) (status v) (speed v) (eta v) (filesize v)
    (downloaded_bytes v) x (output_filename v) (is_paused v) (is_cancelled v).

Definition set_output_filename (x : pyval) (v : VideoItem) : VideoItem :=
  mkVideoItem (video_id v) (title v) (url v) (duration v) (thumbnail v)
    (progress v) (status v) (speed v) (eta v) (filesize v)
    (downloaded_bytes v) (error_message v) x (is_paused v) (is_cancelled v).

Definition set_is_paused (x : bool) (v : VideoItem) : VideoItem :=
  mkVideoItem (video_id v) (title v) (url v) (duration v) (thumbnail v)
    (progress v) (status v) (speed v) (eta v) (filesize v)
    (downloaded_bytes v) (error_message v) (output_filename v) x
    (is_cancelled v).

Definition set_is_cancelled (x : bool) (v : VideoItem) : VideoItem :=
  mkVideoItem (video_id v) (title v) (url v) (duration v) (thumbnail v)
    (progress v) (status v) (speed v) (eta v) (filesize v)
    (downloaded_bytes v) (error_message v) (output_filename v)
    (is_paused v) x.

(** [s in [a, b]] on status strings. *)
Definition status_in (s : string) (l : list string) : bool :=
  bool_decide (s ∈ l).

(** ** Playlist analyzer *)

(** What [ydl.extract_info] hands to [_process_analysis_results]: the
    scalar fields of the [info] dictionary and, under the key
    ['entries'], a list whose elements are dictionaries or [None]. *)
Record info_dict := mkInfo {
  info_fields : pydict;
  info_entries : option (list (option pydict))
}.

(** The body of [for idx, video in enumerate(videos, 1)]. *)
Fixpoint process_entries (idx : nat) (videos : list (option pydict))
  : list VideoItem :=
  match videos with
  | [] => []
  | None :: rest => process_entries (S idx) rest
  | Some video :: rest =>
      if truthy_dict video && truthy (dict_get video "id" PyNone)
      then new_VideoItem
             (dict_get video "id" (PyStr (str_of_nat idx)))
             (dict_get video "title" (PyStr ("Video " +:+ str_of_nat idx)))
             (PyStr ("https://www.youtube.com/watch?v="
                     +:+ py_str (dict_get video "id" (PyStr ""))))
             (dict_get video "duration_string" (PyStr "Unknown"))
             (dict_get video "thumbnail" PyNone)
           :: process_entries (S idx) rest
      else process_entries (S idx) rest
  end.

(** The rows of [self.videos_tree], by their identifiers.  The string
    under which Tk knows the row inserted with [iid=v]: *)
Definition tcl_str (v : pyval) : string :=
  match v with
  | PyBool b => if b then "1" else "0"
  | v => py_str v
  end.

(** [self.videos_tree.insert('', 'end', iid=iid, ...)]: Tk refuses an
    identifier that a row of the tree already has.  With [iid=None] Tk
    names the row itself, with a name not in use (the program does so
    only in an empty tree, and the name is not recorded here).  The
    empty identifier, which names the root of the tree, is not an id
    the extraction capability returns; it is treated as any other. *)
Definition tree_insert (rows : list string) (iid : pyval)
  : exn + list string :=
  match iid with
  | PyNone => inr rows
  | _ =>
      if bool_decide (tcl_str iid ∈ rows)
      then inl (TclError ("Item " +:+ tcl_str iid +:+ " already exists"))
      else inr (rows ++ [tcl_str iid])
  end.

(** [for ... in video_list: self.videos_tree.insert(..., iid=video_item.id, ...)]:
    the exception that ends the loop, if any. *)
Fixpoint insert_rows (rows : list string) (iids : list pyval) : option exn :=
  match iids with
  | [] => None
  | iid :: rest =>
      match tree_insert rows iid with
      | inl e => Some e
      | inr rows' => insert_rows rows' rest
      end
  end.

(** [_process_analysis_results]: the new value of [self.videos] and the
    exception that escapes, if any.  The tree and [self.videos] are
    emptied first, so a failure before [self.videos.extend(video_list)]
    leaves the list empty; the rows are inserted after the list has been
    filled, so a row that the tree refuses leaves the list filled. *)
Definition _process_analysis_results (info : option info_dict)
  : list VideoItem * option exn :=
  match info with
  | None =>
      ([], Some (AttributeError "'NoneType' object has no attribute 'get'"))
  | Some info =>
      if bool_decide (dict_get (info_fields info) "_type" PyNone
                      = PyStr "playlist")
      then match info_entries info with
           | None => ([], Some (KeyError "entries"))
           | Some videos =>
               let video_list := process_entries 1 videos in
               (video_list, insert_rows [] (video_id <$> video_list))
           end
      else let video_item :=
             new_VideoItem
               (dict_get (info_fields info) "id" (PyStr "1"))
               (dict_get (info_fields info) "title" (PyStr "Single Video"))
               (dict_get (info_fields info) "webpage_url" (PyStr ""))
               (dict_get (info_fields info) "duration_string" (PyStr "Unknown"))
               (dict_get (info_fields info) "thumbnail" PyNone) in
           ([video_item], insert_rows [] [video_id video_item])
  end.

(** ** Progress callback: the event handling (lines after the two gates) *)

(** [int(v)] for the values Python accepts as numbers ([bool] is a
    subclass of [int]). *)
Definition as_int (v : pyval) : option Z :=
  match v with
  | PyInt z => Some z
  | PyBool b => Some (if b then 1 else 0)%Z
  | _ => None
  end.

(** [v > 0] *)
Definition py_gt0 (v : pyval) : exn + bool :=
  match as_int v with
  | Some z => inr (0 <? z)%Z
  | None => inl (TypeError ("'>' not supported between instances of '"
                            +:+ type_name v +:+ "' and 'int'"))
  end.

(** The true division [a / b] of two ints raises [OverflowError] when
    the quotient, rounded to the nearest float, is out of range: when
    its absolute value is at least [2^1024 - 2^970], half way between
    the largest float and [2^1024]. *)
Definition float_overflows (a b : Z) : bool :=
  ((2 ^ 1024 - 2 ^ 970) * Z.abs b <=? Z.abs a)%Z.

(** [(a / b) * 100], for [b] already known to be a positive number. *)
Definition py_percent (a b : pyval) : exn + pynum :=
  match as_int a, as_int b with
  | Some x, Some y =>
      if float_overflows x y
      then inl (OverflowError "integer division result too large for a float")
      else inr (Percent x y)
  | _, _ => inl (TypeError ("unsupported operand type(s) for /: '"
                            +:+ type_name a +:+ "' and '"
                            +:+ type_name b +:+ "'"))
  end.

(** The ['downloading'] branch. The four assignments are made before the
    comparison that may raise. *)
Definition on_downloading (d : pydict) (v : VideoItem)
  : VideoItem * option exn :=
  let v1 := set_downloaded_bytes (dict_get d "downloaded_bytes" (PyInt 0)) v in
  let v2 := set_filesize (py_or (dict_get d "total_bytes" (PyInt 0))
                                (dict_get d "total_bytes_estimate" (PyInt 0)))
                         v1 in
  let v3 := set_speed (dict_get d "_speed_str" (PyStr "")) v2 in
  let v4 := set_eta (dict_get d "_eta_str" (PyStr "")) v3 in
  match py_gt0 (filesize v4) with
  | inl e => (v4, Some e)
  | inr false => (v4, None)
  | inr true =>
      match py_percent (downloaded_bytes v4) (filesize v4) with
      | inl e => (v4, Some e)
      | inr p => (set_progress p v4, None)
      end
  end.

(** The ['finished'] branch. *)
Definition on_finished (d : pydict) (v : VideoItem) : VideoItem :=
  set_output_filename (dict_get d "filename" (PyStr ""))
    (set_progress (NumInt 100) (set_status "completed" v)).

(** [if d['status'] == 'downloading': ... elif d['status'] == 'finished': ...] *)
Definition hook_body (d : pydict) (v : VideoItem) : VideoItem * option exn :=
  match d !! "status" with
  | None => (v, Some (KeyError "status"))
  | Some ph =>
      if bool_decide (ph = PyStr "downloading") then on_downloading d v
      else if bool_decide (ph = PyStr "finished") then (on_finished d v, None)
      else (v, None)
  end.

(** ** Control surface

    The handlers run on the UI thread and act on [self.videos]. *)

#[global] Instance VideoItem_inhabited : Inhabited VideoItem :=
  populate (new_VideoItem PyNone PyNone PyNone PyNone PyNone).

Definition pause_video (v : VideoItem) : VideoItem :=
  if bool_decide (status v = "downloading")
  then set_status "paused" (set_is_paused true v)
  else v.

Definition resume_video (v : VideoItem) : VideoItem :=
  if bool_decide (status v = "paused")
  then set_status "downloading" (set_is_paused false v)
  else v.

Definition pause_all_downloads (vs : list VideoItem) : list VideoItem :=
  pause_video <$> vs.

Definition resume_all_downloads (vs : list VideoItem) : list VideoItem :=
  resume_video <$> vs.

Definition cancel_video (v : VideoItem) : VideoItem :=
  if status_in (status v) ["downloading"; "paused"]
  then set_status "cancelled" (set_is_cancelled true v)
  else v.

Definition cancel_all_downloads (vs : list VideoItem) : list VideoItem :=
  cancel_video <$> vs.

(** [on_video_double_click], for the row identifier [item] under the
    pointer (empty when there is no row): the first video whose id is
    that string is paused or resumed. *)
Definition toggle_video (v : VideoItem) : VideoItem :=
  if bool_decide (status v = "downloading") then pause_video v
  else if bool_decide (status v = "paused") then resume_video v
  else v.

Definition on_video_double_click (item : string) (vs : list VideoItem)
  : list VideoItem :=
  if truthy (PyStr item)
  then match list_find (λ v, video_id v = PyStr item) vs with
       | Some (k, _) => alter toggle_video k vs
       | None => vs
       end
  else vs.

Inductive control_op :=
| DoubleClick (item : string)
| PauseAll
| ResumeAll
| CancelAll.

Definition control (op : control_op) (vs : list VideoItem) : list VideoItem :=
  match op with
  | DoubleClick item => on_video_double_click item vs
  | PauseAll => pause_all_downloads vs
  | ResumeAll => resume_all_downloads vs
  | CancelAll => cancel_all_downloads vs
  end.

(** The handlers the UI thread runs, in order, during some interval. *)
Definition controls (ops : list control_op) (vs : list VideoItem)
  : list VideoItem :=
  foldl (λ s op, control op s) vs ops.

(** ** Progress callback: the two gates

    One invocation of [video_progress_hook(d, video_item)] on the worker
    thread, for the video at position [i].  [sleeps] is what the UI
    thread does meanwhile: its [k]-th element lists the handlers run
    during the [k]-th [time.sleep(0.1)] of this invocation.  The
    invocation is [HookBlocked] when the item is still paused after the
    last of them. *)

Inductive hook_result :=
| HookReturn (vs : list VideoItem)
| HookRaise (e : exn) (vs : list VideoItem)
| HookBlocked (vs : list VideoItem).

Definition after_pause (d : pydict) (i : nat) (vs : list VideoItem)
  : hook_result :=
  let '(v', r) := hook_body d (vs !!! i) in
  match r with
  | None => HookReturn (<[i := v']> vs)
  | Some e => HookRaise e (<[i := v']> vs)
  end.

(** [while video_item.is_paused: time.sleep(0.1)], then the event. *)
Fixpoint pause_loop (d : pydict) (i : nat) (sleeps : list (list control_op))
  (vs : list VideoItem) : hook_result :=
  if is_paused (vs !!! i)
  then match sleeps with
       | [] => HookBlocked vs
       | ops :: sleeps' => pause_loop d i sleeps' (controls ops vs)
       end
  else after_pause d i vs.

Definition video_progress_hook (d : pydict) (i : nat)
  (sleeps : list (list control_op)) (vs : list VideoItem) : hook_result :=
  if is_cancelled (vs !!! i)
  then HookRaise (Exception "Download cancelled") vs
  else pause_loop d i sleeps vs.

(** ** The download capability, as the orchestrator sees it

    [ydl.download([url])] is outside the program.  What it does during
    one call is given by a [script]: the progress events it reports, in
    order, and how the call ends.  A script is finite: it describes a
    call that comes to an end unless the callback blocks.  A script
    without events that raises also describes a [try] block that fails
    before the capability is reached ([try_block]).  The UI thread runs concurrently: the
    handlers it executes between two events are listed with the later
    event ([before]), those it executes while the callback sleeps with
    the event they interrupt ([sleeps]), those after the last event in
    [after].  An exception raised by the callback ends the call and
    reaches the caller unchanged. *)

Record hook_call := mkCall {
  before : list control_op;
  event : pydict;
  sleeps : list (list control_op)
}.

Record script := mkScript {
  calls : list hook_call;
  after : list control_op;
  outcome : option exn
}.

Inductive download_result :=
| Returned (vs : list VideoItem)
| Raised (e : exn) (vs : list VideoItem)
| Blocked (vs : list VideoItem).

Fixpoint run_calls (i : nat) (cs : list hook_call) (aft : list control_op)
  (out : option exn) (vs : list VideoItem) : download_result :=
  match cs with
  | [] =>
      match out with
      | None => Returned (controls aft vs)
      | Some e => Raised e (controls aft vs)
      end
  | c :: cs' =>
      match video_progress_hook (event c) i (sleeps c)
              (controls (before c) vs) with
      | HookReturn vs' => run_calls i cs' aft out vs'
      | HookRaise e vs' => Raised e vs'
      | HookBlocked vs' => Blocked vs'
      end
  end.

Definition ydl_download (i : nat) (sc : script) (vs : list VideoItem)
  : download_result :=
  run_calls i (calls sc) (after sc) (outcome sc) vs.

(** ** Per-item download *)

(** The first three statements of [download_single_video]. *)
Definition begin_download (v : VideoItem) : VideoItem :=
  set_is_paused false (set_is_cancelled false (set_status "downloading" v)).

(** The handler [except Exception as e]. *)
Definition mark_failed (e : exn) (v : VideoItem) : VideoItem :=
  set_error_message (exn_str e) (set_status "failed" v).

Inductive single_result :=
| Done (vs : list VideoItem)
| Hung (vs : list VideoItem).

Definition download_single_video (i : nat) (sc : script)
  (vs : list VideoItem) : single_result :=
  match ydl_download i sc (alter begin_download i vs) with
  | Returned vs' => Done vs'
  | Raised e vs' => Done (alter (mark_failed e) i vs')
  | Blocked vs' => Hung vs'
  end.

(** The [try] block reaches the capability only when the options can be
    built: [os.path.join(self.download_path, '%(title)s.%(ext)s')]
    raises unless the folder is a string. *)
Definition outtmpl_error (download_path : pyval) : option exn :=
  match download_path with
  | PyStr _ => None
  | v => Some (TypeError ("expected str, bytes or os.PathLike object, not "
                          +:+ type_name v))
  end.

(** What the [try] block of [download_single_video] does after its
    three assignments, for the folder [self.download_path]: when
    building [ydl_opts] raises, the block ends at once with that
    exception and [ydl.download] is not called; otherwise
    [ydl.download([video_item.url])] runs, as [capability] describes. *)
Definition try_block (download_path : pyval) (capability : script) : script :=
  match outtmpl_error download_path with
  | Some e => mkScript [] [] (Some e)
  | None => capability
  end.

(** ** Download-all loop *)

(** The calls of [download_single_video] made by the loop, as they begin
    and as they return. *)
Inductive call_event :=
| Begin (i : nat)
| End (i : nat).

#[global] Instance call_event_eq_dec : EqDecision call_event.
Proof. solve_decision. Defined.

Record loop_state := mkLoop {
  videos : list VideoItem;
  completed : nat;
  overall_progress : Q;
  call_log : list call_event;
  hung : bool
}.

(** [(completed / total_videos) * 100] *)
Definition overall_percent (completed total_videos : nat) : Q :=
  (inject_Z (Z.of_nat completed) / inject_Z (Z.of_nat total_videos)) * 100.

(** One iteration of [for video in self.videos], for the video at
    position [i]; [env i] is what the [try] block of its download does
    after the three assignments. *)
Definition loop_body (env : nat → script) (total_videos : nat)
  (st : loop_state) (i : nat) : loop_state :=
  if hung st then st
  else if status_in (status (videos st !!! i)) ["completed"; "failed"]
  then st
  else
    match download_single_video i (env i) (videos st) with
    | Hung vs' =>
        mkLoop vs' (completed st) (overall_progress st)
               (call_log st ++ [Begin i]) true
    | Done vs' =>
        if bool_decide (status (vs' !!! i) = "completed")
        then mkLoop vs' (S (completed st))
                    (overall_percent (S (completed st)) total_videos)
                    (call_log st ++ [Begin i; End i]) false
        else mkLoop vs' (completed st) (overall_progress st)
                    (call_log st ++ [Begin i; End i]) false
    end.

Definition run_loop (env : nat → script) (total_videos : nat)
  (idxs : list nat) (st : loop_state) : loop_state :=
  foldl (loop_body env total_videos) st idxs.

(** [_download_all_videos_thread]; [bar] is the value the overall
    progress bar shows when the thread starts. *)
Definition _download_all_videos_thread (env : nat → script)
  (vs : list VideoItem) (bar : Q) : loop_state :=
  run_loop env (length vs) (seq 0 (length vs)) (mkLoop vs 0 bar [] false).

(** ** Configuration store *)

(** A file on disk is a JSON document that parses to an object, or
    anything else ([open] or [json.load] raises, or the document is a
    value without [get]): an empty or truncated file is of the second
    kind. *)
Inductive file_content :=
| JsonObject (o : pydict)
| NotAnObject.

(** How writing a file ends on this disk: the file is written;
    [open(name, 'w')] raises, and the file is left as it was; or [open]
    succeeds, which empties the file, and the write that follows
    raises. *)
Inductive write_outcome :=
| Written
| OpenRefused
| WriteRefused.

#[global] Instance write_outcome_eq_dec : EqDecision write_outcome.
Proof. solve_decision. Defined.

Record file_system := mkFs {
  files : gmap string file_content;
  on_write : write_outcome
}.

(** Writing a file succeeds. *)
Definition writable (fs : file_system) : bool :=
  bool_decide (on_write fs = Written).

Record app_config := mkConfig {
  config_file : string;
  download_path : pyval
}.

Definition load_config (fs : file_system) (self : app_config) : app_config :=
  match files fs !! config_file self with
  | None => self
  | Some (JsonObject config) =>
      mkConfig (config_file self)
               (dict_get config "download_path" (download_path self))
  | Some NotAnObject => self
  end.

(** [save_config]: [with open(self.config_file, 'w') as f:
    json.dump(config, f, indent=2)], any exception being swallowed. *)
Definition save_config (self : app_config) (fs : file_system) : file_system :=
  match on_write fs with
  | Written =>
      mkFs (<[config_file self :=
                JsonObject {["download_path" := download_path self]}]>
            (files fs)) Written
  | OpenRefused => fs
  | WriteRefused =>
      mkFs (<[config_file self := NotAnObject]> (files fs)) WriteRefused
  end.

(** The configuration part of [YouTubeDownloaderOptimized.__init__];
    [downloads] is the string the platform gives for
    [str(Path.home() / "Downloads")]. *)
Definition init (downloads : string) (fs : file_system) : app_config :=
  load_config fs (mkConfig "downloader_config.json" (PyStr downloads)).

(** ** Analysis thread *)




(** ** Starting the downloads, choosing the folder, closing *)

(** [download_all_videos]: [None] when the warning is shown and no
    thread is started. *)
Definition download_all_videos (env : nat → script) (vs : list VideoItem)
  (bar : Q) : option loop_state :=
  match vs with
  | [] => None
  | _ => Some (_download_all_videos_thread env vs bar)
  end.

(** [browse_path], for the string the folder dialog returns (empty when
    the dialog is dismissed). *)
Definition browse_path (path : string) (self : app_config)
  (fs : file_system) : app_config * file_system :=
  if truthy (PyStr path)
  then let self' := mkConfig (config_file self) (PyStr path) in
       (self', save_config self' fs)
  else (self, fs).

(** [on_closing]: cancel everything, then save the configuration. *)
Definition on_closing (self : app_config) (vs : list VideoItem)
  (fs : file_system) : list VideoItem * file_system :=
  (cancel_all_downloads vs, save_config self fs).

(** * Vocabulary of the statements *)

(** The guard of the analyzer's loop: [video and video.get('id')]. *)
Definition has_id (e : option pydict) : bool :=
  match e with
  | Some video => truthy_dict video && truthy (dict_get video "id" PyNone)
  | None => false
  end.

(** The id of an entry that passes the guard. *)
Definition entry_id (e : option pydict) : option pyval :=
  if has_id e then e ≫= (λ video, video !! "id") else None.

Definition is_playlist (info : info_dict) : Prop :=
  dict_get (info_fields info) "_type" PyNone = PyStr "playlist".

(** The identifier of the row inserted for an entry that passes the
    guard. *)
Definition entry_row (e : option pydict) : option string :=
  tcl_str <$> entry_id e.

(** A playlist with an unavailable entry ([None]) and an entry without
    id between two videos. *)
Definition gap_entries : list (option pydict) :=
  [ None;
    Some {[ "id" := PyStr "abc"; "title" := PyStr "First" ]};
    Some {[ "title" := PyStr "Private video" ]};
    Some {[ "id" := PyStr "xyz"; "title" := PyStr "Last" ]} ].

Definition gap_playlist : info_dict :=
  mkInfo {[ "_type" := PyStr "playlist"; "title" := PyStr "Mix" ]}
         (Some gap_entries).

(** A playlist with an unavailable entry ([None]) and the same video
    listed twice: the tree refuses the second row. *)
Definition dup_entries : list (option pydict) :=
  [ None;
    Some {[ "id" := PyStr "abc"; "title" := PyStr "First" ]};
    Some {[ "id" := PyStr "abc"; "title" := PyStr "Again" ]} ].

Definition dup_playlist : info_dict :=
  mkInfo {[ "_type" := PyStr "playlist"; "title" := PyStr "Mix" ]}
         (Some dup_entries).

(** The total byte count an event reports: ['total_bytes'], or else
    ['total_bytes_estimate'], or else [0]. *)
Definition reported_total (d : pydict) : pyval :=
  py_or (dict_get d "total_bytes" (PyInt 0))
        (dict_get d "total_bytes_estimate" (PyInt 0)).

(** The total is known: it is a positive number. *)
Definition total_known (d : pydict) : Prop :=
  ∃ t, as_int (reported_total d) = Some t ∧ (0 < t)%Z.

Definition downloading_event (a b : Z) : pydict :=
  {[ "status" := PyStr "downloading";
     "downloaded_bytes" := PyInt a;
     "total_bytes" := PyInt b ]}.

Definition finished_event : pydict :=
  {[ "status" := PyStr "finished"; "filename" := PyStr "clip.mp4" ]}.

Definition sample_item (name : string) : VideoItem :=
  new_VideoItem (PyStr name) (PyStr "Clip") (PyStr "https://example.org/v")
                (PyStr "3:14") PyNone.

(** What the UI thread alone does to [self.videos] over the given
    sleeps of one callback invocation. *)
Definition ui_during (sleeps : list (list control_op))
  (vs : list VideoItem) : list VideoItem :=
  foldl (λ s ops, controls ops s) vs sleeps.

(** The item at position [i] has its pause flag set at every test of
    [while video_item.is_paused] made over the given sleeps. *)
Fixpoint paused_at_polls (i : nat) (sleeps : list (list control_op))
  (vs : list VideoItem) : Prop :=
  is_paused (vs !!! i) = true ∧
  match sleeps with
  | [] => True
  | ops :: rest => paused_at_polls i rest (controls ops vs)
  end.

(** The fields of an item that only the worker thread writes. *)
Definition data (v : VideoItem) :=
  (video_id v, title v, url v, duration v, thumbnail v, progress v,
   speed v, eta v, filesize v, downloaded_bytes v, error_message v,
   output_filename v).

(** The per-item effect of a control-surface handler. *)
Inductive handler : (VideoItem → VideoItem) → Prop :=
| handler_none : handler (λ v, v)
| handler_pause : handler pause_video
| handler_resume : handler resume_video
| handler_cancel : handler cancel_video
| handler_toggle : handler toggle_video.

(** No handler of the control surface acts on an item in this status. *)
Definition inert (v : VideoItem) : Prop :=
  status v ≠ "downloading" ∧ status v ≠ "paused".

(** A download during which "Cancel All" is pressed between the first
    and the second progress event. *)
Definition cancel_script : script :=
  mkScript [ mkCall [] (downloading_event 10 100) [];
             mkCall [CancelAll] (downloading_event 20 100) [] ]
           [] None.

(** "Pause All" then "Cancel All", pressed while the one video of the
    list is downloading. *)
Definition paused_then_cancelled : list VideoItem :=
  controls [PauseAll; CancelAll] [begin_download (sample_item "a")].

(** The one video of the list, paused with "Pause All" while it
    downloads. *)
Definition paused_video : list VideoItem :=
  controls [PauseAll] [begin_download (sample_item "a")].

(** The list of videos a result carries. *)
Definition hook_store (r : hook_result) : list VideoItem :=
  match r with
  | HookReturn vs | HookRaise _ vs | HookBlocked vs => vs
  end.

Definition download_store (r : download_result) : list VideoItem :=
  match r with
  | Returned vs | Raised _ vs | Blocked vs => vs
  end.

Definition single_store (r : single_result) : list VideoItem :=
  match r with
  | Done vs | Hung vs => vs
  end.

(** The state of [_download_all_videos_thread] before its loop. *)
Definition loop_start (vs : list VideoItem) (bar : Q) : loop_state :=
  mkLoop vs 0 bar [] false.

(** The state in which the loop reaches the video at position [i]: the
    state after the iterations for the positions before [i]. *)
Definition visit (env : nat → script) (vs : list VideoItem) (bar : Q)
  (i : nat) : loop_state :=
  run_loop env (length vs) (seq 0 i) (loop_start vs bar).

(** The status of the video at position [i], when the loop reaches it,
    is neither ['completed'] nor ['failed']. *)
Definition attempted (env : nat → script) (vs : list VideoItem) (bar : Q)
  (i : nat) : bool :=
  negb (status_in (status (videos (visit env vs bar i) !!! i))
                  ["completed"; "failed"]).

(** The calls made for the first [n] positions when each call returns:
    one call, begun and ended, per attempted position, in order. *)
Definition expected_log (att : nat → bool) (n : nat) : list call_event :=
  flat_map (λ i, if att i then [Begin i; End i] else []) (seq 0 n).

Definition call_index (ev : call_event) : nat :=
  match ev with Begin i | End i => i end.

(** The callback handles the event of this call without raising, and no
    handler of the UI thread runs before it. *)
Definition handled_quietly (c : hook_call) : Prop :=
  before c = [] ∧ ∀ v, (hook_body (event c) v).2 = None.

Definition reports_finished (c : hook_call) : Prop :=
  event c !! "status" = Some (PyStr "finished").

(** The download capability succeeds: it invokes the callback with the
    ['finished'] phase and returns without raising, with no interference
    from the control surface. *)
Definition succeeds (sc : script) : Prop :=
  outcome sc = None ∧ after sc = [] ∧
  Forall handled_quietly (calls sc) ∧ Exists reports_finished (calls sc).

Definition ok_script : script :=
  mkScript [ mkCall [] (downloading_event 10 100) [];
             mkCall [] finished_event [] ]
           [] None.

(** A list as a second run of "Download All" finds it: one video
    pending, one that failed earlier, one left paused, one left
    cancelled. *)
Definition second_run : list VideoItem :=
  [ sample_item "a";
    set_status "failed" (sample_item "b");
    set_status "paused" (set_is_paused true (sample_item "c"));
    set_status "cancelled" (set_is_cancelled true (sample_item "d")) ].

(** The video is one the loop does not pass over. *)
Definition to_download (v : VideoItem) : Prop :=
  status_in (status v) ["completed"; "failed"] = false.

(** A second run over a video that failed before, and over a list whose
    first video is already completed. *)
Definition failed_before : list VideoItem :=
  [ set_status "failed" (sample_item "a") ].

Definition half_done : list VideoItem :=
  [ set_status "completed" (sample_item "a"); sample_item "b" ].

(** A download that raises an exception without text, as
    [raise Exception()] does, and one that raises a [DownloadError]. *)
Definition silent_failure : script :=
  mkScript [ mkCall [] (downloading_event 10 100) [] ] []
           (Some (Exception "")).

Definition network_failure : script :=
  mkScript [ mkCall [] (downloading_event 10 100) [] ] []
           (Some (DownloadError "ERROR: unable to download video data")).

(** The second of three downloads fails. *)
Definition second_fails (i : nat) : script :=
  if bool_decide (i = 1) then network_failure else ok_script.

Definition three_pending : list VideoItem :=
  [ sample_item "a"; sample_item "b"; sample_item "c" ].

(** The download of the video at position [i] succeeds in the run of
    the loop: the capability invokes the callback with the ['finished']
    phase and the call returns without raising. *)
Definition returns_finished (env : nat → script) (vs : list VideoItem)
  (bar : Q) (i : nat) : Prop :=
  Exists reports_finished (calls (env i)) ∧
  ∃ vs1, ydl_download i (env i)
           (alter begin_download i (videos (visit env vs bar i)))
         = Returned vs1.

(** The download state [VideoItem.__init__] gives a new item. *)
Definition fresh (v : VideoItem) : Prop :=
  status v = "pending" ∧ progress v = NumInt 0 ∧
  downloaded_bytes v = PyInt 0 ∧ filesize v = PyInt 0 ∧
  speed v = PyStr "" ∧ eta v = PyStr "" ∧
  error_message v = "" ∧ output_filename v = PyStr "" ∧
  is_paused v = false ∧ is_cancelled v = false.

(** The number of entries before position [k] that the analyzer
    keeps. *)
Definition kept_before (k : nat) (es : list (option pydict)) : nat :=
  length (process_entries 1 (take k es)).

(** A video that "Pause All" followed by "Resume All" gives back as it
    was: it is not already paused, and if it is downloading its pause
    flag is clear. *)
Definition running_or_idle (v : VideoItem) : Prop :=
  status v ≠ "paused" ∧ (status v = "downloading" → is_paused v = false).

(** The video at position [k] is the first of the list whose id is the
    string [item]. *)
Definition first_with_id (item : string) (k : nat) (vs : list VideoItem)
  : Prop :=
  (∃ v, vs !! k = Some v ∧ video_id v = PyStr item) ∧
  ∀ j w, j < k → vs !! j = Some w → video_id w ≠ PyStr item.

(** Two videos with the same id, the first one downloading. *)
Definition twins : list VideoItem :=
  [ sample_item "z"; begin_download (sample_item "a");
    begin_download (sample_item "a") ].

(** Every video of the list satisfies the property stated for its
    position. *)
Definition all_items (P : nat → VideoItem → Prop) (vs : list VideoItem)
  : Prop :=
  ∀ k, k < length vs → P k (vs !!! k).

(** The six statuses the program writes. *)
Definition known_status (v : VideoItem) : Prop :=
  status v ∈ ["pending"; "downloading"; "paused"; "completed"; "failed";
              "cancelled"].

(** The flags agree with the status: a paused video has its pause flag
    set, a cancelled one its cancel flag. *)
Definition flags_agree (v : VideoItem) : Prop :=
  (status v = "paused" → is_paused v = true) ∧
  (status v = "cancelled" → is_cancelled v = true).

(** What the analyzer gave the video. *)
Definition identity (v : VideoItem) :=
  (video_id v, title v, url v, duration v, thumbnail v).

(** The operation never sets a pause flag. *)
Definition never_pauses (op : control_op) : bool :=
  match op with
  | ResumeAll | CancelAll => true
  | PauseAll | DoubleClick _ => false
  end.

(** No pause is requested between the previous call of the callback
    (or the start of the download) and this one. *)
Definition call_not_paused (c : hook_call) : Prop :=
  Forall (λ op, never_pauses op = true) (before c).


(** A session of the folder browser: [browse_path] run for each string
    the dialog returns, in order. *)
Definition browse_all (paths : list string) (self : app_config)
  (fs : file_system) : app_config * file_system :=
  foldl (λ st path, browse_path path st.1 st.2) (self, fs) paths.

(** The folder in force after those dialogs: the last one chosen, or
    else the one in force before. *)
Definition last_choice (paths : list string) (current : pyval) : pyval :=
  foldl (λ acc path, if truthy (PyStr path) then PyStr path else acc)
        current paths.

(** The number of completed videos in the list. *)
Definition count_completed (vs : list VideoItem) : nat :=
  length (filter (λ v, status v = "completed") vs).

(** [1] for a completed video, [0] for any other. *)
Definition completed_bit (v : VideoItem) : nat :=
  if bool_decide (status v = "completed") then 1 else 0.

(** * Properties *)

(** ** Playlist analyzer *)

Lemma truthy_get_id (video : pydict) (x : pyval) :
  truthy (dict_get video "id" PyNone) = true →
  video !! "id" = Some (dict_get video "id" x).
Proof.
  unfold dict_get. destruct (video !! "id") as [y|]; simpl; [done|].
  discriminate.
Qed.

Lemma process_entries_ids (idx : nat) (es : list (option pydict)) :
  video_id <$> process_entries idx es = omap entry_id es.
Proof.
  revert idx. induction es as [|[video|] es IH]; intros idx; simpl.
  - done.
  - unfold entry_id at 1. simpl.
    destruct (truthy_dict video && truthy (dict_get video "id" PyNone))
      eqn:Hg; simpl.
    + apply andb_true_iff in Hg as [_ Hid].
      rewrite (truthy_get_id video (PyStr (str_of_nat idx)) Hid). simpl.
      by rewrite IH.
    + apply IH.
  - apply IH.
Qed.

Lemma process_entries_length (idx : nat) (es : list (option pydict)) :
  length (process_entries idx es) = length (filter (λ e, has_id e) es).
Proof.
  revert idx. induction es as [|[video|] es IH]; intros idx; simpl.
  - done.
  - rewrite filter_cons. simpl.
    destruct (truthy_dict video && truthy (dict_get video "id" PyNone));
      simpl; by rewrite IH.
  - rewrite filter_cons. simpl. apply IH.
Qed.

Lemma filter_all_length {A} (P : A → Prop) `{∀ x, Decision (P x)}
  (l : list A) : Forall P l → length (filter P l) = length l.
Proof.
  induction 1 as [|x l Hx _ IH]; [done|].
  rewrite filter_cons_True by done. simpl. by rewrite IH.
Qed.


Lemma tree_insert_raises (rows : list string) (iid : pyval) (e : exn) :
  tree_insert rows iid = inl e → ∃ msg, e = TclError msg.
Proof.
  unfold tree_insert. destruct iid; try discriminate;
    case_bool_decide; try discriminate; intros [= <-]; by eexists.
Qed.

Lemma insert_rows_raises (rows : list string) (iids : list pyval) (e : exn) :
  insert_rows rows iids = Some e → ∃ msg, e = TclError msg.
Proof.
  revert rows. induction iids as [|iid iids IH]; intros rows; simpl.
  - discriminate.
  - destruct (tree_insert rows iid) as [e'|rows'] eqn:Hins.
    + intros [= <-]. by eapply tree_insert_raises.
    + apply IH.
Qed.

(** The rows are all accepted exactly when their identifiers are new to
    the tree and pairwise distinct. *)
Lemma insert_rows_accepts (rows : list string) (iids : list pyval) :
  Forall (λ v, v ≠ PyNone) iids →
  insert_rows rows iids = None ↔
  NoDup (tcl_str <$> iids) ∧ ∀ s, s ∈ tcl_str <$> iids → s ∉ rows.
Proof.
  intros Hnn. revert rows.
  induction Hnn as [|iid iids Hiid _ IH]; intros rows; simpl.
  - split; [|done]. intros _. split; [constructor|].
    intros s Hs. by apply elem_of_nil in Hs.
  - assert (tree_insert rows iid
            = if bool_decide (tcl_str iid ∈ rows)
              then inl (TclError ("Item " +:+ tcl_str iid +:+ " already exists"))
              else inr (rows ++ [tcl_str iid])) as ->.
    { by destruct iid. }
    case_bool_decide as Hin.
    + split; [discriminate|]. intros [_ Hnew]. exfalso.
      apply (Hnew (tcl_str iid)); [by left|done].
    + rewrite IH. rewrite NoDup_cons. split.
      * intros [Hnd Hnew]. split; [split; [|done]|].
        -- intros Hmem. apply (Hnew _ Hmem). apply elem_of_app. right.
           by apply list_elem_of_singleton.
        -- intros s Hs Hrows. apply elem_of_cons in Hs as [->|Hs]; [done|].
           apply (Hnew s Hs). apply elem_of_app. by left.
      * intros [[Hfirst Hnd] Hnew]. split; [done|].
        intros s Hs Hrows. apply elem_of_app in Hrows as [Hrows|Hrows].
        -- apply (Hnew s); [by right|done].
        -- apply list_elem_of_singleton in Hrows as ->. done.
Qed.


Lemma omap_entry_row (es : list (option pydict)) :
  tcl_str <$> omap entry_id es = omap entry_row es.
Proof.
  induction es as [|e es IH]; [done|]. simpl. unfold entry_row at 1.
  destruct (entry_id e); simpl; [f_equal|]; exact IH.
Qed.

Lemma entry_id_not_none (es : list (option pydict)) :
  Forall (λ v, v ≠ PyNone) (omap entry_id es).
Proof.
  induction es as [|e es IH]; simpl; [constructor|].
  destruct (entry_id e) as [v|] eqn:He; [|done].
  constructor; [|done]. unfold entry_id in He.
  destruct (has_id e) eqn:Hid; [|done]. destruct e as [video|]; [|done].
  simpl in *. apply andb_true_iff in Hid as [_ Hid].
  rewrite (truthy_get_id video PyNone Hid) in He. injection He as <-.
  intros Hnone. by rewrite Hnone in Hid.
Qed.

(** The rows of a playlist are all accepted exactly when the kept
    entries have pairwise distinct row identifiers. *)
Lemma playlist_rows_accepted (es : list (option pydict)) :
  insert_rows [] (video_id <$> process_entries 1 es) = None ↔
  NoDup (omap entry_row es).
Proof.
  rewrite process_entries_ids.
  rewrite (insert_rows_accepts [] _ (entry_id_not_none es)).
  rewrite omap_entry_row. split; [by intros [? _]|].
  intros Hnd. split; [done|]. intros s _ Hs. by apply elem_of_nil in Hs.
Qed.

(** C2, as stated, fails: for the playlist [gap_playlist] of four
    entries, two of them without id, the analysis ends without error and
    has produced two items. *)
Lemma analysis_length_and_ids_counterexample :
  is_playlist gap_playlist ∧
  info_entries gap_playlist = Some gap_entries ∧
  length gap_entries = 4 ∧
  (_process_analysis_results (Some gap_playlist)).2 = None ∧
  length (_process_analysis_results (Some gap_playlist)).1 = 2 ∧
  length (_process_analysis_results (Some gap_playlist)).1
    ≠ length gap_entries.
Proof. vm_compute. repeat split. discriminate. Qed.

(** C2, amended: for a playlist result in which the entries that carry
    an id carry pairwise distinct ones (as row identifiers), the
    analysis raises nothing and produces one item per entry that is a
    non-empty dictionary with a non-empty id, in the order of those
    entries, each item carrying the id of its entry.  So the length is
    the number of such entries, at most the number of entries and equal
    to it when every entry has an id, and the identifiers of the items
    are pairwise distinct. *)
Theorem analysis_keeps_entries_with_id (info : info_dict)
  (es : list (option pydict)) :
  is_playlist info →
  info_entries info = Some es →
  NoDup (omap entry_row es) →
  let r := _process_analysis_results (Some info) in
  r.2 = None ∧
  video_id <$> r.1 = omap entry_id es ∧
  length r.1 = length (filter (λ e, has_id e) es) ∧
  length r.1 ≤ length es ∧
  (Forall (λ e, has_id e) es → length r.1 = length es) ∧
  NoDup (video_id <$> r.1).
Proof.
  intros Hp He Hnd. unfold _process_analysis_results, is_playlist in *.
  rewrite bool_decide_eq_true_2 by done. rewrite He. cbn [fst snd].
  split; [by apply playlist_rows_accepted|].
  split; [apply process_entries_ids|].
  split; [apply process_entries_length|].
  split; [rewrite process_entries_length; apply length_filter|].
  split.
  - intros Hall. rewrite process_entries_length.
    by apply filter_all_length.
  - rewrite process_entries_ids. rewrite <- omap_entry_row in Hnd.
    by apply NoDup_fmap_1 in Hnd.
Qed.

Lemma analysis_keeps_entries_with_id_witness :
  let r := _process_analysis_results (Some gap_playlist) in
  r.2 = None ∧
  video_id <$> r.1 = omap entry_id gap_entries ∧
  length r.1 = length (filter (λ e, has_id e) gap_entries) ∧
  length r.1 ≤ length gap_entries ∧
  (Forall (λ e, has_id e) gap_entries → length r.1 = length gap_entries) ∧
  NoDup (video_id <$> r.1).
Proof.
  apply (analysis_keeps_entries_with_id gap_playlist gap_entries).
  - reflexivity.
  - reflexivity.
  - vm_compute. apply (bool_decide_unpack _). vm_compute. exact I.
Defined.

(** The same video listed twice: the list receives both items, then the
    tree refuses the second row. *)
Example repeated_video_refused :
  ∃ v1 v2,
    _process_analysis_results (Some dup_playlist)
    = ([v1; v2], Some (TclError "Item abc already exists")) ∧
    video_id v1 = PyStr "abc" ∧ video_id v2 = PyStr "abc".
Proof. vm_compute. do 2 eexists. repeat split. Qed.

(** ** Progress callback: event handling *)

Lemma on_downloading_progress_known (d : pydict) (v : VideoItem) (t b : Z) :
  as_int (reported_total d) = Some t → (0 < t)%Z →
  as_int (dict_get d "downloaded_bytes" (PyInt 0)) = Some b →
  float_overflows b t = false →
  ∃ v', on_downloading d v = (v', None) ∧ progress v' = Percent b t.
Proof.
  intros Ht Hpos Hb Hfit. unfold on_downloading, py_gt0, py_percent.
  cbn [filesize downloaded_bytes set_eta set_speed set_filesize
       set_downloaded_bytes].
  fold (reported_total d). rewrite Ht, Hb, Hfit.
  apply Z.ltb_lt in Hpos. rewrite Hpos. eexists. split; reflexivity.
Qed.

Lemma on_downloading_progress_unknown (d : pydict) (v : VideoItem) :
  ¬ total_known d → progress (on_downloading d v).1 = progress v.
Proof.
  intros Hun. unfold on_downloading, py_gt0.
  cbn [filesize downloaded_bytes set_eta set_speed set_filesize
       set_downloaded_bytes].
  fold (reported_total d).
  destruct (as_int (reported_total d)) as [t|] eqn:Ht; [|done].
  destruct (0 <? t)%Z eqn:Hpos; [|done].
  exfalso. apply Hun. exists t. split; [done|]. by apply Z.ltb_lt.
Qed.

(** When neither gate is closed the callback is its event handling. *)
Lemma hook_gates_open (d : pydict) (i : nat) (sl : list (list control_op))
  (vs : list VideoItem) :
  is_cancelled (vs !!! i) = false → is_paused (vs !!! i) = false →
  video_progress_hook d i sl vs = after_pause d i vs.
Proof.
  intros Hc Hp. unfold video_progress_hook. rewrite Hc.
  destruct sl; simpl; by rewrite Hp.
Qed.

(** ** Configuration store *)

Lemma load_after_save (self other : app_config) (fs : file_system) :
  writable fs = true → config_file other = config_file self →
  download_path (load_config (save_config self fs) other)
    = download_path self.
Proof.
  intros Hw Hf. apply bool_decide_eq_true_1 in Hw.
  unfold load_config, save_config. rewrite Hw. simpl.
  rewrite Hf, lookup_insert_eq. simpl.
  unfold dict_get. by rewrite lookup_singleton_eq.
Qed.

(** C8: [downloads] being the string the platform gives for the
    ["Downloads"] folder of the user's home, the default of a new
    instance.  A path saved by one instance (the write succeeding) is
    the path a fresh instance starts with, whatever the default then
    is and whatever the configuration file held before; and a fresh
    instance that finds no configuration file starts with the default,
    whatever other files there are. *)
Theorem config_round_trip (downloads : string) (fs : file_system) :
  (∀ self, writable fs = true →
           config_file self = "downloader_config.json" →
           download_path (init downloads (save_config self fs))
             = download_path self) ∧
  (files fs !! "downloader_config.json" = None →
   download_path (init downloads fs) = PyStr downloads).
Proof.
  split.
  - intros self Hw Hf. unfold init. apply load_after_save; [done|].
    by rewrite Hf.
  - intros Hnone. unfold init, load_config. simpl. by rewrite Hnone.
Qed.

Lemma config_round_trip_witness :
  download_path
    (init "/home/ann/Downloads"
       (save_config (mkConfig "downloader_config.json" (PyStr "/data/videos"))
                    (mkFs {[ "downloader_config.json" := NotAnObject ]}
                          Written)))
    = PyStr "/data/videos" ∧
  download_path
    (init "/home/ann/Downloads"
       (mkFs {[ "notes.txt" := NotAnObject ]} Written))
    = PyStr "/home/ann/Downloads".
Proof.
  split.
  - apply (proj1 (config_round_trip "/home/ann/Downloads"
                    (mkFs {[ "downloader_config.json" := NotAnObject ]}
                          Written))
             (mkConfig "downloader_config.json" (PyStr "/data/videos")));
      reflexivity.
  - apply (proj2 (config_round_trip "/home/ann/Downloads"
                    (mkFs {[ "notes.txt" := NotAnObject ]} Written))).
    vm_compute. reflexivity.
Defined.

(** What a fresh instance starts with when the configuration file is
    there but of no use: not a JSON object, or an object without the
    key; and a value that is not a string is taken as it is. *)
Example unusable_config_file :
  download_path
    (init "/home/ann/Downloads"
       (mkFs {[ "downloader_config.json" := NotAnObject ]} Written))
    = PyStr "/home/ann/Downloads" ∧
  download_path
    (init "/home/ann/Downloads"
       (mkFs {[ "downloader_config.json"
                  := JsonObject {[ "theme" := PyStr "dark" ]} ]} Written))
    = PyStr "/home/ann/Downloads" ∧
  download_path
    (init "/home/ann/Downloads"
       (mkFs {[ "downloader_config.json"
                  := JsonObject {[ "download_path" := PyNone ]} ]} Written))
    = PyNone.
Proof. vm_compute. repeat split. Qed.

(** ** Control surface *)

Lemma handler_data (f : VideoItem → VideoItem) (v : VideoItem) :
  handler f → data (f v) = data v.
Proof.
  intros Hf. destruct Hf; try done;
    unfold toggle_video, pause_video, resume_video, cancel_video;
    repeat case_bool_decide; try done;
    destruct (status_in _ _); done.
Qed.

Lemma handler_inert (f : VideoItem → VideoItem) (v : VideoItem) :
  handler f → inert v → f v = v.
Proof.
  intros Hf [Hd Hp]. destruct Hf; try done;
    unfold toggle_video, pause_video, resume_video, cancel_video, status_in;
    repeat case_bool_decide; try done.
  match goal with
  | H : _ ∈ _ |- _ =>
      apply elem_of_cons in H as [?|H];
      [done|by apply list_elem_of_singleton in H]
  end.
Qed.

Lemma control_lookup (op : control_op) (vs : list VideoItem) (i : nat) :
  ∃ f, handler f ∧ control op vs !! i = f <$> vs !! i.
Proof.
  destruct op as [item| | |]; simpl.
  - unfold on_video_double_click.
    destruct (truthy (PyStr item));
      [|exists (λ v, v); split; [constructor|by rewrite option_fmap_id]].
    destruct (list_find _ vs) as [[k w]|];
      [|exists (λ v, v); split; [constructor|by rewrite option_fmap_id]].
    rewrite list_lookup_alter. case_decide; subst.
    + exists toggle_video. split; [constructor|done].
    + exists (λ v, v). split; [constructor|by rewrite option_fmap_id].
  - exists pause_video. split; [constructor|apply list_lookup_fmap].
  - exists resume_video. split; [constructor|apply list_lookup_fmap].
  - exists cancel_video. split; [constructor|apply list_lookup_fmap].
Qed.

Lemma control_length (op : control_op) (vs : list VideoItem) :
  length (control op vs) = length vs.
Proof.
  destruct op as [item| | |]; simpl;
    try (unfold pause_all_downloads, resume_all_downloads,
           cancel_all_downloads; apply length_fmap).
  unfold on_video_double_click. destruct (truthy _); [|done].
  destruct (list_find _ vs) as [[k w]|]; [|done]. apply length_alter.
Qed.

Lemma controls_length (ops : list control_op) (vs : list VideoItem) :
  length (controls ops vs) = length vs.
Proof.
  revert vs. induction ops as [|op ops IH]; intros vs; [done|].
  unfold controls in *. simpl. by rewrite IH, control_length.
Qed.

Lemma ui_during_length (sleeps : list (list control_op))
  (vs : list VideoItem) : length (ui_during sleeps vs) = length vs.
Proof.
  revert vs. induction sleeps as [|ops sl IH]; intros vs; [done|].
  unfold ui_during in *. simpl. by rewrite IH, controls_length.
Qed.

Lemma control_total (op : control_op) (vs : list VideoItem) (i : nat) :
  i < length vs →
  ∃ f, handler f ∧ control op vs !!! i = f (vs !!! i).
Proof.
  intros Hi. destruct (control_lookup op vs i) as (f & Hf & Hl).
  exists f. split; [done|].
  apply list_lookup_total_correct. rewrite Hl.
  by rewrite (list_lookup_lookup_total_lt vs i Hi).
Qed.

(** A property of items that every handler preserves is preserved by
    any sequence of control-surface operations. *)
Lemma controls_preserve {B} (g : VideoItem → B) (ops : list control_op)
  (vs : list VideoItem) (i : nat) :
  (∀ f v, handler f → g (f v) = g v) →
  i < length vs → g (controls ops vs !!! i) = g (vs !!! i).
Proof.
  intros Hg. revert vs. induction ops as [|op ops IH]; intros vs Hi; [done|].
  unfold controls in *. simpl.
  rewrite IH by (by rewrite control_length).
  destruct (control_total op vs i Hi) as (f & Hf & ->). by apply Hg.
Qed.

Lemma ui_during_preserve {B} (g : VideoItem → B)
  (sleeps : list (list control_op)) (vs : list VideoItem) (i : nat) :
  (∀ f v, handler f → g (f v) = g v) →
  i < length vs → g (ui_during sleeps vs !!! i) = g (vs !!! i).
Proof.
  intros Hg. revert vs.
  induction sleeps as [|ops sl IH]; intros vs Hi; [done|].
  unfold ui_during in *. simpl.
  rewrite IH by (by rewrite controls_length).
  by apply controls_preserve.
Qed.

Lemma controls_inert (ops : list control_op) (vs : list VideoItem)
  (i : nat) :
  i < length vs → inert (vs !!! i) → controls ops vs !!! i = vs !!! i.
Proof.
  revert vs. induction ops as [|op ops IH]; intros vs Hi Hin; [done|].
  unfold controls in *. simpl.
  destruct (control_total op vs i Hi) as (f & Hf & Hfi).
  rewrite (handler_inert f _ Hf Hin) in Hfi.
  rewrite IH; [done|by rewrite control_length|by rewrite Hfi].
Qed.

Lemma cancel_all_keeps_pause (vs : list VideoItem) (i : nat) :
  i < length vs →
  is_paused (cancel_all_downloads vs !!! i) = is_paused (vs !!! i).
Proof.
  intros Hi. unfold cancel_all_downloads.
  rewrite (list_lookup_total_fmap cancel_video vs i Hi).
  unfold cancel_video. by destruct (status_in _ _).
Qed.

Lemma cancel_all_sets_flag (vs : list VideoItem) (i : nat) :
  i < length vs →
  status_in (status (vs !!! i)) ["downloading"; "paused"] = true →
  is_cancelled (cancel_all_downloads vs !!! i) = true ∧
  status (cancel_all_downloads vs !!! i) = "cancelled".
Proof.
  intros Hi Hs. unfold cancel_all_downloads.
  rewrite (list_lookup_total_fmap cancel_video vs i Hi).
  unfold cancel_video. by rewrite Hs.
Qed.

(** ** Progress callback: the gates *)

Lemma cancelled_callback_raises (d : pydict) (i : nat)
  (sl : list (list control_op)) (vs : list VideoItem) :
  is_cancelled (vs !!! i) = true →
  video_progress_hook d i sl vs
    = HookRaise (Exception "Download cancelled") vs.
Proof. intros Hc. unfold video_progress_hook. by rewrite Hc. Qed.

Lemma pause_loop_blocked (d : pydict) (i : nat)
  (sleeps : list (list control_op)) (vs : list VideoItem) :
  paused_at_polls i sleeps vs →
  pause_loop d i sleeps vs = HookBlocked (ui_during sleeps vs).
Proof.
  revert vs. induction sleeps as [|ops sl IH]; intros vs [Hp Hrest]; simpl.
  - by rewrite Hp.
  - rewrite Hp. by apply IH.
Qed.

Lemma pause_loop_resumes (d : pydict) (i : nat)
  (sleeps : list (list control_op)) (ops : list control_op)
  (rest : list (list control_op)) (vs : list VideoItem) :
  paused_at_polls i sleeps vs →
  is_paused (controls ops (ui_during sleeps vs) !!! i) = false →
  pause_loop d i (sleeps ++ ops :: rest) vs
    = after_pause d i (controls ops (ui_during sleeps vs)).
Proof.
  revert vs. induction sleeps as [|o sl IH]; intros vs [Hp Hrest] Hclear.
  - simpl in *. rewrite Hp. destruct rest; simpl; by rewrite Hclear.
  - simpl. rewrite Hp. by apply IH.
Qed.

Lemma paused_idle (i n : nat) (vs : list VideoItem) :
  is_paused (vs !!! i) = true →
  paused_at_polls i (replicate n []) vs ∧ ui_during (replicate n []) vs = vs.
Proof.
  intros Hp. induction n as [|n [IH1 IH2]]; simpl; [done|].
  split; [by split|]. exact IH2.
Qed.

(** C6, as stated, fails: after "Pause All" and "Cancel All" the pause
    flag of the video is set, and the next invocation of the callback
    raises instead of blocking. *)
Lemma paused_callback_raises_counterexample :
  is_paused (paused_then_cancelled !!! 0) = true ∧
  video_progress_hook (downloading_event 20 100) 0 [[]; []]
      paused_then_cancelled
    = HookRaise (Exception "Download cancelled") paused_then_cancelled.
Proof. split; vm_compute; reflexivity. Qed.

(** C6, amended: for an item whose cancel flag is not set when the
    callback is invoked, as long as the pause flag is set at every test
    of the loop the invocation stays blocked: it has not raised, the list
    of videos is what the UI thread alone made of it, the item's
    progress, byte counters, speed and ETA are those it had at the call,
    and with an idle UI thread nothing at all has changed.  When a test
    finds the flag cleared, the same invocation goes on to handle its
    event. *)
Theorem paused_callback_blocks (d : pydict) (i : nat)
  (sleeps : list (list control_op)) (vs : list VideoItem) :
  i < length vs →
  is_cancelled (vs !!! i) = false →
  paused_at_polls i sleeps vs →
  video_progress_hook d i sleeps vs = HookBlocked (ui_during sleeps vs) ∧
  data (ui_during sleeps vs !!! i) = data (vs !!! i) ∧
  (∀ n, video_progress_hook d i (replicate n []) vs = HookBlocked vs) ∧
  (∀ ops rest,
     is_paused (controls ops (ui_during sleeps vs) !!! i) = false →
     video_progress_hook d i (sleeps ++ ops :: rest) vs
       = after_pause d i (controls ops (ui_during sleeps vs))).
Proof.
  intros Hi Hc Hp. unfold video_progress_hook. rewrite Hc.
  split; [by apply pause_loop_blocked|].
  split; [apply ui_during_preserve; [apply handler_data|done]|].
  split.
  - intros n. assert (is_paused (vs !!! i) = true) as Hp0.
    { destruct sleeps; simpl in Hp; tauto. }
    destruct (paused_idle i n vs Hp0) as [H1 H2].
    rewrite (pause_loop_blocked d i _ vs H1). by rewrite H2.
  - intros ops rest Hclear. by apply pause_loop_resumes.
Qed.

Lemma paused_callback_blocks_witness :
  video_progress_hook (downloading_event 20 100) 0 [[]; []] paused_video
    = HookBlocked (ui_during [[]; []] paused_video).
Proof.
  apply (paused_callback_blocks (downloading_event 20 100) 0 [[]; []]
           paused_video).
  - vm_compute. lia.
  - vm_compute. reflexivity.
  - vm_compute. repeat split.
Defined.

(** Pausing, then resuming: the blocked invocation handles its event. *)
Example pause_then_resume :
  ∃ v, video_progress_hook (downloading_event 20 100) 0
         [[]; [ResumeAll]; [PauseAll]] paused_video = HookReturn [v] ∧
       status v = "downloading" ∧ downloaded_bytes v = PyInt 20 ∧
       progress v = Percent 20 100.
Proof. vm_compute. eexists. repeat split. Qed.

(** C9: for an item blocked in the pause loop, "Cancel All" leaves the
    pause flag set (and sets the cancel flag when the item is downloading
    or paused), and for as long as the pause flag remains set at the
    tests of the loop the invocation is blocked, not raised. *)
Theorem cancel_while_paused_stays_blocked (d : pydict) (i : nat)
  (sleeps : list (list control_op)) (vs : list VideoItem) :
  i < length vs →
  is_cancelled (vs !!! i) = false →
  is_paused (vs !!! i) = true →
  paused_at_polls i sleeps (cancel_all_downloads vs) →
  video_progress_hook d i ([CancelAll] :: sleeps) vs
    = HookBlocked (ui_during sleeps (cancel_all_downloads vs)) ∧
  is_paused (cancel_all_downloads vs !!! i) = true ∧
  (status_in (status (vs !!! i)) ["downloading"; "paused"] = true →
   is_cancelled (cancel_all_downloads vs !!! i) = true).
Proof.
  intros Hi Hc Hp Hpolls. split; [|split].
  - unfold video_progress_hook. rewrite Hc. simpl. rewrite Hp.
    by apply pause_loop_blocked.
  - by rewrite cancel_all_keeps_pause.
  - intros Hs. by apply cancel_all_sets_flag.
Qed.

Lemma cancel_while_paused_stays_blocked_witness :
  video_progress_hook (downloading_event 20 100) 0 [[CancelAll]; []; []]
      paused_video
    = HookBlocked (ui_during [[]; []] (cancel_all_downloads paused_video)) ∧
  is_cancelled (cancel_all_downloads paused_video !!! 0) = true.
Proof.
  destruct (cancel_while_paused_stays_blocked (downloading_event 20 100) 0
              [[]; []] paused_video) as (H1 & _ & H3).
  - vm_compute. lia.
  - vm_compute. reflexivity.
  - vm_compute. reflexivity.
  - vm_compute. repeat split.
  - split; [exact H1|]. apply H3. vm_compute. reflexivity.
Defined.

(** Once "Cancel All" has reached a paused item, no operation of the
    control surface clears its pause flag: the callback stays blocked
    whatever the UI thread does. *)
Lemma cancelled_paused_never_resumes (d : pydict) (i : nat)
  (sleeps : list (list control_op)) (vs : list VideoItem) :
  i < length vs →
  is_paused (vs !!! i) = true → inert (vs !!! i) →
  ∃ vs', pause_loop d i sleeps vs = HookBlocked vs' ∧ vs' !!! i = vs !!! i.
Proof.
  revert vs. induction sleeps as [|ops sl IH]; intros vs Hi Hp Hin; simpl.
  - rewrite Hp. by exists vs.
  - rewrite Hp.
    pose proof (controls_inert ops vs i Hi Hin) as Heq.
    destruct (IH (controls ops vs)) as (vs' & H1 & H2).
    + by rewrite controls_length.
    + by rewrite Heq.
    + by rewrite Heq.
    + exists vs'. split; [done|]. by rewrite H2.
Qed.

(** ** Progress callback: progress of the item *)

Lemma handler_progress (f : VideoItem → VideoItem) (v : VideoItem) :
  handler f → progress (f v) = progress v.
Proof.
  intros Hf. pose proof (handler_data f v Hf) as Hd. unfold data in Hd.
  congruence.
Qed.

Lemma hook_body_progress_unknown (d : pydict) (v : VideoItem) :
  d !! "status" = Some (PyStr "downloading") →
  ¬ total_known d → progress (hook_body d v).1 = progress v.
Proof.
  intros Hph. unfold hook_body. rewrite Hph.
  rewrite bool_decide_eq_true_2 by done.
  apply on_downloading_progress_unknown.
Qed.

Lemma pause_loop_progress_unknown (d : pydict) (i : nat)
  (sl : list (list control_op)) (vs : list VideoItem) :
  d !! "status" = Some (PyStr "downloading") → ¬ total_known d →
  i < length vs →
  progress (hook_store (pause_loop d i sl vs) !!! i) = progress (vs !!! i).
Proof.
  intros Hph Hun. revert vs.
  assert (∀ vs, i < length vs →
            progress (hook_store (after_pause d i vs) !!! i)
              = progress (vs !!! i)) as Hap.
  { intros vs Hi. unfold after_pause.
    pose proof (hook_body_progress_unknown d (vs !!! i) Hph Hun) as Hb.
    destruct (hook_body d (vs !!! i)) as [v' [e|]]; simpl in *;
      by rewrite list_lookup_total_insert_eq. }
  induction sl as [|ops sl IH]; intros vs Hi; simpl.
  - destruct (is_paused (vs !!! i)); [done|by apply Hap].
  - destruct (is_paused (vs !!! i)); [|by apply Hap].
    rewrite IH by (by rewrite controls_length).
    apply controls_preserve; [apply handler_progress|done].
Qed.

Lemma hook_body_progress_known (d : pydict) (v : VideoItem) (t b : Z) :
  d !! "status" = Some (PyStr "downloading") →
  as_int (reported_total d) = Some t → (0 < t)%Z →
  as_int (dict_get d "downloaded_bytes" (PyInt 0)) = Some b →
  float_overflows b t = false →
  ∃ v', hook_body d v = (v', None) ∧ progress v' = Percent b t.
Proof.
  intros Hph. unfold hook_body. rewrite Hph.
  rewrite bool_decide_eq_true_2 by done.
  apply on_downloading_progress_known.
Qed.

Lemma pause_loop_progress_known (d : pydict) (i : nat)
  (sl : list (list control_op)) (vs vs' : list VideoItem) (t b : Z) :
  d !! "status" = Some (PyStr "downloading") →
  as_int (reported_total d) = Some t → (0 < t)%Z →
  as_int (dict_get d "downloaded_bytes" (PyInt 0)) = Some b →
  float_overflows b t = false →
  i < length vs →
  pause_loop d i sl vs = HookReturn vs' → progress (vs' !!! i) = Percent b t.
Proof.
  intros Hph Ht Hpos Hb Hfit. revert vs.
  assert (∀ vs, i < length vs → after_pause d i vs = HookReturn vs' →
                progress (vs' !!! i) = Percent b t) as Hap.
  { intros vs Hi. unfold after_pause.
    destruct (hook_body_progress_known d (vs !!! i) t b Hph Ht Hpos Hb Hfit)
      as (v' & Hv' & Hp).
    rewrite Hv'. intros [= <-]. by rewrite list_lookup_total_insert_eq. }
  induction sl as [|ops sl IH]; intros vs Hi; simpl.
  - destruct (is_paused (vs !!! i)); [done|by apply Hap].
  - destruct (is_paused (vs !!! i)); [|by apply Hap].
    apply IH. by rewrite controls_length.
Qed.

(** C7: an invocation of the callback for the video at position [i],
    with an event of the ['downloading'] phase.  When the reported total
    ([total_bytes], or else [total_bytes_estimate]) is a positive int
    [t] and the downloaded byte count an int [b] (with [b / t] in the
    range of a float): if neither the cancel flag nor the pause flag of
    the video is set, the invocation returns and has stored the value of
    [(b / t) * 100] in the [progress] of that video of the list, the
    other videos being untouched; and whatever the flags, an invocation
    that returns (after a pause, when the video has been resumed) has
    stored that value.  When the total is not known, the [progress] of
    the video is after the invocation what it was before, however the
    invocation ends. *)
Theorem progress_recomputed_iff_total_known (d : pydict) (i : nat)
  (sl : list (list control_op)) (vs : list VideoItem) :
  d !! "status" = Some (PyStr "downloading") →
  i < length vs →
  (∀ t b, as_int (reported_total d) = Some t → (0 < t)%Z →
          as_int (dict_get d "downloaded_bytes" (PyInt 0)) = Some b →
          float_overflows b t = false →
          (is_cancelled (vs !!! i) = false → is_paused (vs !!! i) = false →
           ∃ vs', video_progress_hook d i sl vs = HookReturn vs' ∧
                  progress (vs' !!! i) = Percent b t ∧
                  ∀ k, k ≠ i → vs' !!! k = vs !!! k) ∧
          (∀ vs', video_progress_hook d i sl vs = HookReturn vs' →
                  progress (vs' !!! i) = Percent b t)) ∧
  (¬ total_known d →
   progress (hook_store (video_progress_hook d i sl vs) !!! i)
     = progress (vs !!! i)).
Proof.
  intros Hph Hi. split.
  - intros t b Ht Hpos Hb Hfit. split.
    + intros Hc Hp. rewrite hook_gates_open by done. unfold after_pause.
      destruct (hook_body_progress_known d (vs !!! i) t b Hph Ht Hpos Hb Hfit)
        as (v' & Hv' & Hpr).
      rewrite Hv'. eexists. split; [reflexivity|]. split.
      * by rewrite list_lookup_total_insert_eq.
      * intros k Hk. by rewrite list_lookup_total_insert_ne.
    + intros vs'. unfold video_progress_hook.
      destruct (is_cancelled (vs !!! i)); [done|].
      by apply pause_loop_progress_known.
  - intros Hun. unfold video_progress_hook.
    destruct (is_cancelled (vs !!! i)); [done|].
    by apply pause_loop_progress_unknown.
Qed.

Lemma progress_recomputed_iff_total_known_witness :
  ∃ vs', video_progress_hook (downloading_event 7 100) 0 []
           [begin_download (sample_item "a")] = HookReturn vs' ∧
         progress (vs' !!! 0) = Percent 7 100 ∧
         ∀ k, k ≠ 0 → vs' !!! k = [begin_download (sample_item "a")] !!! k.
Proof.
  refine (proj1 (proj1 (progress_recomputed_iff_total_known
                          (downloading_event 7 100) 0 []
                          [begin_download (sample_item "a")] eq_refl _)
                       100%Z 7%Z _ _ _ _) _ _).
  - simpl. lia.
  - reflexivity.
  - lia.
  - reflexivity.
  - vm_compute. reflexivity.
  - reflexivity.
  - reflexivity.
Defined.

(** A total so small that the quotient is out of the range of a float:
    the division raises and the progress is not touched. *)
Example overflowing_quotient_raises :
  ∃ v, hook_body (downloading_event (2 ^ 1024) 1) (sample_item "a")
       = (v, Some (OverflowError
                     "integer division result too large for a float")) ∧
       progress v = NumInt 0.
Proof. vm_compute. eexists. repeat split. Qed.

(** An event without a total: the byte counter advances, the progress
    does not. *)
Example unknown_total_keeps_progress :
  ∃ v, hook_body {[ "status" := PyStr "downloading";
                    "downloaded_bytes" := PyInt 700;
                    "total_bytes" := PyNone ]}
         (set_progress (Percent 2 5) (sample_item "a")) = (v, None) ∧
       downloaded_bytes v = PyInt 700 ∧ progress v = Percent 2 5.
Proof. vm_compute. eexists. repeat split. Qed.

(** ** Per-item download *)

Lemma after_pause_length (d : pydict) (i : nat) (vs : list VideoItem) :
  length (hook_store (after_pause d i vs)) = length vs.
Proof.
  unfold after_pause. destruct (hook_body d (vs !!! i)) as [v' [e|]];
    simpl; apply length_insert.
Qed.

Lemma pause_loop_length (d : pydict) (i : nat)
  (sl : list (list control_op)) (vs : list VideoItem) :
  length (hook_store (pause_loop d i sl vs)) = length vs.
Proof.
  revert vs. induction sl as [|ops sl IH]; intros vs; simpl.
  - destruct (is_paused (vs !!! i)); [done|apply after_pause_length].
  - destruct (is_paused (vs !!! i)); [|apply after_pause_length].
    by rewrite IH, controls_length.
Qed.

Lemma hook_length (d : pydict) (i : nat) (sl : list (list control_op))
  (vs : list VideoItem) :
  length (hook_store (video_progress_hook d i sl vs)) = length vs.
Proof.
  unfold video_progress_hook.
  destruct (is_cancelled (vs !!! i)); [done|apply pause_loop_length].
Qed.

Lemma run_calls_length (i : nat) (cs : list hook_call)
  (aft : list control_op) (out : option exn) (vs : list VideoItem) :
  length (download_store (run_calls i cs aft out vs)) = length vs.
Proof.
  revert vs. induction cs as [|c cs IH]; intros vs; simpl.
  - destruct out; simpl; apply controls_length.
  - pose proof (hook_length (event c) i (sleeps c) (controls (before c) vs))
      as Hl. rewrite controls_length in Hl.
    destruct (video_progress_hook _ _ _ _) as [vs'|e vs'|vs']; simpl in *;
      [by rewrite IH|done|done].
Qed.

Lemma ydl_download_length (i : nat) (sc : script) (vs : list VideoItem) :
  length (download_store (ydl_download i sc vs)) = length vs.
Proof. apply run_calls_length. Qed.

Lemma download_single_video_length (i : nat) (sc : script)
  (vs : list VideoItem) :
  length (single_store (download_single_video i sc vs)) = length vs.
Proof.
  unfold download_single_video.
  pose proof (ydl_download_length i sc (alter begin_download i vs)) as Hl.
  rewrite length_alter in Hl.
  destruct (ydl_download _ _ _) as [vs'|e vs'|vs']; simpl in *;
    [done|by rewrite length_alter|done].
Qed.

(** An exception that leaves [ydl.download] is caught and the item is
    marked failed, with the text of the exception as its message. *)
Lemma raised_download_fails (i : nat) (sc : script) (e : exn)
  (vs vs' : list VideoItem) :
  i < length vs →
  ydl_download i sc (alter begin_download i vs) = Raised e vs' →
  download_single_video i sc vs = Done (alter (mark_failed e) i vs') ∧
  status (alter (mark_failed e) i vs' !!! i) = "failed" ∧
  error_message (alter (mark_failed e) i vs' !!! i) = exn_str e.
Proof.
  intros Hi Hr. unfold download_single_video. rewrite Hr.
  pose proof (ydl_download_length i sc (alter begin_download i vs)) as Hl.
  rewrite Hr, length_alter in Hl. simpl in Hl.
  rewrite list_lookup_total_alter_eq by lia. done.
Qed.

(** With the cancel flag set when the callback is next invoked, the
    download ends there with the callback's exception. *)
Lemma cancel_flag_ends_download (i : nat) (c : hook_call)
  (cs : list hook_call) (aft : list control_op) (out : option exn)
  (vs : list VideoItem) :
  is_cancelled (controls (before c) vs !!! i) = true →
  run_calls i (c :: cs) aft out vs
    = Raised (Exception "Download cancelled") (controls (before c) vs).
Proof.
  intros Hc. simpl. by rewrite cancelled_callback_raises.
Qed.

(** C1 (what the code does): "Cancel All" pressed during a download
    makes the next invocation of the callback raise, and the handler of
    [download_single_video] then overwrites the status ["cancelled"]
    with ["failed"]. *)
Theorem cancelled_download_ends_failed :
  status (cancel_all_downloads
            [begin_download (sample_item "a")] !!! 0) = "cancelled" ∧
  ∃ v, download_single_video 0 cancel_script [sample_item "a"] = Done [v] ∧
       is_cancelled v = true ∧
       status v = "failed" ∧
       error_message v = "Download cancelled".
Proof.
  split; [vm_compute; reflexivity|].
  vm_compute. eexists. split; [reflexivity|]. repeat split.
Qed.

Lemma begin_download_forgets (c p : bool) (s : string) (v : VideoItem) :
  begin_download (set_status s (set_is_paused p (set_is_cancelled c v)))
    = begin_download v.
Proof. reflexivity. Qed.

(** C10: the per-item download of the video at position [i], whatever
    flags and status a pause or a cancel request has left on it.  When
    the capability returns at once, the download returns and has left
    the video ['downloading'] with both flags clear, its other fields
    and the other videos as they were.  When the capability first
    reports the ['finished'] phase, that first invocation of the
    callback is neither refused by a cancel flag nor held by a pause
    flag set beforehand: the video ends ['completed'].  And for any
    behaviour of the capability the download from a list in which the
    flags and the status of the video have been overwritten is the
    download from the list itself. *)
Theorem download_start_discards_requests (i : nat) (sc : script)
  (vs : list VideoItem) :
  i < length vs →
  (∃ vs', download_single_video i (mkScript [] [] None) vs = Done vs' ∧
          status (vs' !!! i) = "downloading" ∧
          is_cancelled (vs' !!! i) = false ∧
          is_paused (vs' !!! i) = false ∧
          data (vs' !!! i) = data (vs !!! i) ∧
          ∀ k, k ≠ i → vs' !!! k = vs !!! k) ∧
  (∀ d sl, d !! "status" = Some (PyStr "finished") →
     ∃ vs', download_single_video i (mkScript [mkCall [] d sl] [] None) vs
              = Done vs' ∧
            status (vs' !!! i) = "completed") ∧
  (∀ c p s,
     download_single_video i sc
       (alter (λ v, set_status s (set_is_paused p (set_is_cancelled c v)))
              i vs)
     = download_single_video i sc vs).
Proof.
  intros Hi. split; [|split].
  - exists (alter begin_download i vs). split; [reflexivity|].
    rewrite list_lookup_total_alter_eq by done.
    repeat split. intros k Hk. by rewrite list_lookup_total_alter_ne.
  - intros d sl Hd.
    unfold download_single_video, ydl_download.
    cbn [calls after outcome run_calls before event sleeps controls foldl].
    rewrite hook_gates_open
      by (by rewrite list_lookup_total_alter_eq by done).
    unfold after_pause, hook_body. rewrite Hd.
    rewrite bool_decide_eq_false_2 by done.
    rewrite bool_decide_eq_true_2 by done.
    cbn [run_calls controls foldl]. eexists. split; [reflexivity|].
    rewrite list_lookup_total_insert_eq; [done|].
    by rewrite length_alter.
  - intros c p s. unfold download_single_video.
    rewrite list_alter_alter_eq.
    rewrite (list_alter_ext _ begin_download _ vs i); [done| |done].
    intros v _. apply begin_download_forgets.
Qed.

Lemma download_start_discards_requests_witness :
  (∃ vs', download_single_video 0 (mkScript [] [] None) paused_then_cancelled
            = Done vs' ∧
          status (vs' !!! 0) = "downloading" ∧
          is_cancelled (vs' !!! 0) = false ∧
          is_paused (vs' !!! 0) = false ∧
          data (vs' !!! 0) = data (paused_then_cancelled !!! 0) ∧
          ∀ k, k ≠ 0 → vs' !!! k = paused_then_cancelled !!! k) ∧
  is_cancelled (paused_then_cancelled !!! 0) = true ∧
  is_paused (paused_then_cancelled !!! 0) = true.
Proof.
  split; [|split; vm_compute; reflexivity].
  apply (download_start_discards_requests 0 cancel_script
           paused_then_cancelled).
  vm_compute. lia.
Defined.

(** After "Pause All" and "Cancel All" the video is downloaded by a
    second run as if nothing had been requested. *)
Example requests_discarded_by_second_run :
  status <$> single_store
    (download_single_video 0 ok_script paused_then_cancelled)
  = ["completed"].
Proof. vm_compute. reflexivity. Qed.

(** ** Download-all loop: order of the calls *)

Lemma visit_S (env : nat → script) (vs : list VideoItem) (bar : Q)
  (n : nat) :
  visit env vs bar (S n) = loop_body env (length vs) (visit env vs bar n) n.
Proof. unfold visit, run_loop. by rewrite seq_S, foldl_app. Qed.

Lemma expected_log_S (att : nat → bool) (n : nat) :
  expected_log att (S n)
    = expected_log att n ++ (if att n then [Begin n; End n] else []).
Proof.
  unfold expected_log. rewrite seq_S, flat_map_app. simpl.
  by rewrite app_nil_r.
Qed.

Lemma call_log_shape (env : nat → script) (vs : list VideoItem) (bar : Q)
  (n : nat) :
  (hung (visit env vs bar n) = false →
   call_log (visit env vs bar n)
     = expected_log (attempted env vs bar) n) ∧
  (hung (visit env vs bar n) = true →
   ∃ k, k < n ∧ attempted env vs bar k = true ∧
        call_log (visit env vs bar n)
          = expected_log (attempted env vs bar) k ++ [Begin k]).
Proof.
  induction n as [|n [IHf IHt]].
  - split; [done|]. intros Hh. discriminate Hh.
  - rewrite visit_S, expected_log_S. unfold loop_body.
    destruct (hung (visit env vs bar n)) eqn:Hh.
    + split; [intros Hf; congruence|]. intros _.
      destruct (IHt eq_refl) as (k & Hk & Ha & Hl).
      exists k. split; [lia|done].
    + assert (attempted env vs bar n
              = negb (status_in (status (videos (visit env vs bar n) !!! n))
                                ["completed"; "failed"])) as Hatt
        by reflexivity.
      destruct (status_in _ _) eqn:Hs; rewrite Hatt; simpl.
      * split; [intros _; rewrite app_nil_r; by apply IHf|].
        intros Hf. congruence.
      * destruct (download_single_video _ _ _) as [vs'|vs'].
        -- case_bool_decide; simpl;
             (split; [intros _; by rewrite IHf|intros Hf; discriminate Hf]).
        -- simpl. split; [intros Hf; discriminate Hf|]. intros _.
           exists n. split; [lia|]. split; [by rewrite Hatt|by rewrite IHf].
Qed.

Lemma loop_body_attempt (env : nat → script) (total : nat)
  (st : loop_state) (i : nat) :
  hung st = false →
  status_in (status (videos st !!! i)) ["completed"; "failed"] = false →
  videos (loop_body env total st i)
    = single_store (download_single_video i (env i) (videos st)) ∧
  (hung (loop_body env total st i) = true ↔
   ∃ vs', download_single_video i (env i) (videos st) = Hung vs').
Proof.
  intros Hh Hs. unfold loop_body. rewrite Hh, Hs.
  destruct (download_single_video i (env i) (videos st)) as [vs'|vs'].
  - case_bool_decide; simpl; (split; [done|]);
      (split; [discriminate|intros [? [=]]]).
  - simpl. split; [done|]. split; [by eexists|done].
Qed.

Lemma loop_body_passes (env : nat → script) (total : nat)
  (st : loop_state) (i : nat) :
  hung st = true ∨
  status_in (status (videos st !!! i)) ["completed"; "failed"] = true →
  loop_body env total st i = st.
Proof.
  unfold loop_body. intros [->| ->]; [done|]. by destruct (hung st).
Qed.

Lemma try_block_reaches (p : string) (capability : script) :
  try_block (PyStr p) capability = capability.
Proof. reflexivity. Qed.

Lemma try_block_fails (download_path : pyval) (e : exn) (capability : script)
  (i : nat) (vs : list VideoItem) :
  outtmpl_error download_path = Some e →
  download_single_video i (try_block download_path capability) vs
    = Done (alter (mark_failed e) i (alter begin_download i vs)).
Proof. intros He. unfold try_block. by rewrite He. Qed.

(** C5, as stated, fails: with a download folder that is not a string
    (the configuration file holds [{"download_path": 5}]) the pending
    video of the list is attempted, but the options of its download
    cannot be built and the capability is not invoked: whatever the
    capability would do, the video ends ['failed'] with the message of
    the [TypeError].  With a folder that is a string the same video is
    downloaded. *)
Lemma capability_not_reached_counterexample :
  status (sample_item "a") = "pending" ∧
  (∀ capability : nat → script,
     attempted (λ i, try_block (PyInt 5) (capability i)) [sample_item "a"] 0 0
       = true ∧
     videos (_download_all_videos_thread
               (λ i, try_block (PyInt 5) (capability i)) [sample_item "a"] 0)
       = [mark_failed
            (TypeError "expected str, bytes or os.PathLike object, not int")
            (begin_download (sample_item "a"))]) ∧
  status <$> videos (_download_all_videos_thread
                       (λ i, try_block (PyStr "/data") ok_script)
                       [sample_item "a"] 0)
    = ["completed"].
Proof.
  split; [reflexivity|]. split.
  - intros capability. split; vm_compute; reflexivity.
  - vm_compute. reflexivity.
Qed.

(** C5, amended: the loop takes the positions of the list in order, one
    after the other, each from the state the positions before it have
    left ([visit]), and the thread ends in the state reached after the
    last one.  A position whose video is ['completed'] or ['failed']
    when it is reached is passed over, with no change at all; at any
    other position (pending, paused, cancelled, ...) the per-item
    download runs, and the list is then what that download has made of
    it; the next position is taken when the download has returned, and
    if it never returns no later position is reached.  The per-item
    download invokes the download capability when the download folder
    is a string: its result is then what the capability's run makes of
    the list in which the video has been reset; when the folder is not
    a string the video is marked failed while the options are built,
    whatever the capability would have done. *)
Theorem loop_calls_in_order (download_path : pyval)
  (capability : nat → script) (vs : list VideoItem) (bar : Q) :
  let env := λ i, try_block download_path (capability i) in
  _download_all_videos_thread env vs bar = visit env vs bar (length vs) ∧
  visit env vs bar 0 = loop_start vs bar ∧
  (∀ i, hung (visit env vs bar i) = false →
        attempted env vs bar i = true →
        videos (visit env vs bar (S i))
          = single_store
              (download_single_video i (env i) (videos (visit env vs bar i))) ∧
        (hung (visit env vs bar (S i)) = true ↔
         ∃ vs', download_single_video i (env i) (videos (visit env vs bar i))
                = Hung vs')) ∧
  (∀ i, hung (visit env vs bar i) = true ∨ attempted env vs bar i = false →
        visit env vs bar (S i) = visit env vs bar i) ∧
  (∀ p i vs0, download_path = PyStr p →
     download_single_video i (env i) vs0
       = match ydl_download i (capability i) (alter begin_download i vs0) with
         | Returned vs' => Done vs'
         | Raised e vs' => Done (alter (mark_failed e) i vs')
         | Blocked vs' => Hung vs'
         end) ∧
  (∀ e i vs0, outtmpl_error download_path = Some e →
     download_single_video i (env i) vs0
       = Done (alter (mark_failed e) i (alter begin_download i vs0))) ∧
  (hung (_download_all_videos_thread env vs bar) = false →
   call_log (_download_all_videos_thread env vs bar)
     = expected_log (attempted env vs bar) (length vs)) ∧
  (hung (_download_all_videos_thread env vs bar) = true →
   ∃ k, k < length vs ∧ attempted env vs bar k = true ∧
        call_log (_download_all_videos_thread env vs bar)
          = expected_log (attempted env vs bar) k ++ [Begin k]).
Proof.
  intros env.
  split; [reflexivity|]. split; [reflexivity|]. split; [|split].
  - intros i Hh Ha. rewrite visit_S. apply loop_body_attempt; [done|].
    unfold attempted in Ha. by apply negb_true_iff in Ha.
  - intros i Hc. rewrite visit_S. apply loop_body_passes.
    destruct Hc as [Hh|Ha]; [by left|right].
    unfold attempted in Ha. by apply negb_false_iff in Ha.
  - split; [|split].
    + intros p i vs0 ->. reflexivity.
    + intros e i vs0 He. by apply try_block_fails.
    + apply (call_log_shape env vs bar (length vs)).
Qed.

Lemma loop_calls_in_order_witness :
  videos (visit (λ i, try_block (PyStr "/data") ok_script) second_run 0 3)
    = single_store
        (download_single_video 2 (try_block (PyStr "/data") ok_script)
           (videos (visit (λ i, try_block (PyStr "/data") ok_script)
                      second_run 0 2))) ∧
  visit (λ i, try_block (PyStr "/data") ok_script) second_run 0 2
    = visit (λ i, try_block (PyStr "/data") ok_script) second_run 0 1 ∧
  call_log (_download_all_videos_thread
              (λ i, try_block (PyStr "/data") ok_script) second_run 0)
    = expected_log
        (attempted (λ i, try_block (PyStr "/data") ok_script) second_run 0) 4.
Proof.
  pose proof (loop_calls_in_order (PyStr "/data") (λ _, ok_script)
                second_run 0) as (_ & _ & Hrun & Hpass & _ & _ & Hlog & _).
  split; [|split].
  - apply (Hrun 2); vm_compute; reflexivity.
  - apply (Hpass 1). right. vm_compute. reflexivity.
  - apply Hlog. vm_compute. reflexivity.
Defined.

(** The failed video is passed over; the paused and the cancelled ones
    are downloaded. *)
Example second_run_calls :
  call_log (_download_all_videos_thread (λ _, ok_script) second_run 0)
    = [Begin 0; End 0; Begin 2; End 2; Begin 3; End 3].
Proof. vm_compute. reflexivity. Qed.

(** ** Downloads without interference *)

Lemma on_downloading_keeps (d : pydict) (v : VideoItem) :
  status (on_downloading d v).1 = status v ∧
  is_paused (on_downloading d v).1 = is_paused v ∧
  is_cancelled (on_downloading d v).1 = is_cancelled v.
Proof.
  unfold on_downloading.
  destruct (py_gt0 _) as [e|[|]]; [done| |done].
  by destruct (py_percent _ _).
Qed.

Lemma hook_body_flags (d : pydict) (v : VideoItem) :
  is_paused (hook_body d v).1 = is_paused v ∧
  is_cancelled (hook_body d v).1 = is_cancelled v.
Proof.
  unfold hook_body. destruct (d !! "status") as [ph|]; [|done].
  repeat case_bool_decide; try done.
  destruct (on_downloading_keeps d v) as (_ & ? & ?). done.
Qed.

Lemma hook_body_status (d : pydict) (v : VideoItem) :
  (d !! "status" = Some (PyStr "finished") →
   status (hook_body d v).1 = "completed") ∧
  (status v = "completed" → status (hook_body d v).1 = "completed").
Proof.
  unfold hook_body. split.
  - intros ->. rewrite bool_decide_eq_false_2 by done.
    by rewrite bool_decide_eq_true_2.
  - intros Hs. destruct (d !! "status") as [ph|]; [|done].
    repeat case_bool_decide; try done.
    destruct (on_downloading_keeps d v) as (-> & _). done.
Qed.

Lemma insert_lookup_total_id (vs : list VideoItem) (i : nat) :
  i < length vs → <[i := vs !!! i]> vs = vs.
Proof.
  intros Hi. apply list_insert_id. by apply list_lookup_lookup_total_lt.
Qed.

(** A download without interference in which the callback never raises
    touches its own item only, and leaves it completed when one of the
    events reports the ['finished'] phase. *)
Lemma run_calls_quiet (i : nat) (cs : list hook_call)
  (vs : list VideoItem) :
  Forall handled_quietly cs →
  i < length vs →
  is_cancelled (vs !!! i) = false → is_paused (vs !!! i) = false →
  ∃ v', run_calls i cs [] None vs = Returned (<[i := v']> vs) ∧
        (Exists reports_finished cs ∨ status (vs !!! i) = "completed" →
         status v' = "completed").
Proof.
  intros Hq. revert vs. induction Hq as [|c cs [Hb Hok] _ IH];
    intros vs Hi Hc Hp.
  - exists (vs !!! i). simpl. split.
    + by rewrite insert_lookup_total_id.
    + intros [Hex|Hs]; [by apply Exists_nil in Hex|done].
  - simpl. rewrite Hb. change (controls [] vs) with vs.
    rewrite hook_gates_open by done. unfold after_pause.
    pose proof (Hok (vs !!! i)) as Hnone.
    pose proof (hook_body_flags (event c) (vs !!! i)) as [Hfp Hfc].
    pose proof (hook_body_status (event c) (vs !!! i)) as [Hfin Hkeep].
    destruct (hook_body (event c) (vs !!! i)) as [v1 r]. simpl in *.
    subst r.
    destruct (IH (<[i := v1]> vs)) as (v' & Hrun & Hst).
    + by rewrite length_insert.
    + rewrite list_lookup_total_insert_eq by done. congruence.
    + rewrite list_lookup_total_insert_eq by done. congruence.
    + exists v'. rewrite Hrun, list_insert_insert_eq. split; [done|].
      intros Hcase. apply Hst.
      rewrite list_lookup_total_insert_eq by done.
      destruct Hcase as [Hex|Hs]; [|right; by apply Hkeep].
      apply Exists_cons in Hex as [Hc0|Hex]; [right; by apply Hfin|by left].
Qed.

Lemma overall_percent_all (n : nat) :
  0 < n → (overall_percent n n == 100)%Q.
Proof.
  intros Hn. unfold overall_percent.
  assert (¬ (inject_Z (Z.of_nat n) == 0)%Q) as Hne.
  { unfold Qeq. simpl. lia. }
  field. exact Hne.
Qed.

(** ** Download-all loop: a download that fails *)

Lemma visit_prefix (env env' : nat → script) (vs : list VideoItem)
  (bar : Q) (k : nat) :
  (∀ j, j < k → env' j = env j) →
  visit env' vs bar k = visit env vs bar k.
Proof.
  induction k as [|k IH]; intros Hagree; [done|].
  rewrite !visit_S, IH by (intros j Hj; apply Hagree; lia).
  unfold loop_body. by rewrite (Hagree k) by lia.
Qed.

Lemma loop_continues (env : nat → script) (vs : list VideoItem) (bar : Q)
  (k : nat) :
  k ≤ length vs →
  _download_all_videos_thread env vs bar
    = run_loop env (length vs) (seq k (length vs - k)) (visit env vs bar k).
Proof.
  intros Hk. unfold _download_all_videos_thread, visit, run_loop.
  rewrite <- foldl_app, <- seq_app. do 3 f_equal. lia.
Qed.

Lemma loop_body_videos (env : nat → script) (total : nat)
  (st : loop_state) (i : nat) :
  videos (loop_body env total st i) = videos st ∨
  videos (loop_body env total st i)
    = single_store (download_single_video i (env i) (videos st)).
Proof.
  unfold loop_body. destruct (hung st); [by left|].
  destruct (status_in _ _); [by left|]. right.
  destruct (download_single_video _ _ _); [|done].
  by case_bool_decide.
Qed.

Lemma loop_body_length (env : nat → script) (total : nat)
  (st : loop_state) (i : nat) :
  length (videos (loop_body env total st i)) = length (videos st).
Proof.
  destruct (loop_body_videos env total st i) as [->| ->]; [done|].
  apply download_single_video_length.
Qed.

Lemma run_loop_length (env : nat → script) (total : nat)
  (idxs : list nat) (st : loop_state) :
  length (videos (run_loop env total idxs st)) = length (videos st).
Proof.
  revert st. induction idxs as [|i idxs IH]; intros st; [done|].
  unfold run_loop in *. simpl. by rewrite IH, loop_body_length.
Qed.

Lemma visit_length (env : nat → script) (vs : list VideoItem) (bar : Q)
  (n : nat) : length (videos (visit env vs bar n)) = length vs.
Proof. unfold visit. by rewrite run_loop_length. Qed.

(** What every handler of the control surface preserves, the download
    of one video preserves on every other video. *)
Lemma controls_keep (P : VideoItem → Prop) (ops : list control_op)
  (vs : list VideoItem) (k : nat) :
  (∀ f v, handler f → P v → P (f v)) →
  k < length vs → P (vs !!! k) → P (controls ops vs !!! k).
Proof.
  intros HP. revert vs. induction ops as [|op ops IH]; intros vs Hk Hv;
    [done|].
  unfold controls in *. simpl. apply IH; [by rewrite control_length|].
  destruct (control_total op vs k Hk) as (f & Hf & ->). by apply HP.
Qed.

Lemma pause_loop_other (P : VideoItem → Prop) (d : pydict) (j k : nat)
  (sl : list (list control_op)) (vs : list VideoItem) :
  (∀ f v, handler f → P v → P (f v)) →
  j ≠ k → k < length vs → P (vs !!! k) →
  P (hook_store (pause_loop d j sl vs) !!! k).
Proof.
  intros HP Hne. revert vs.
  assert (∀ vs, P (vs !!! k) → P (hook_store (after_pause d j vs) !!! k))
    as Hap.
  { intros vs Hv. unfold after_pause.
    destruct (hook_body d (vs !!! j)) as [v' [e|]]; simpl;
      by rewrite list_lookup_total_insert_ne. }
  induction sl as [|ops sl IH]; intros vs Hk Hv; simpl.
  - destruct (is_paused (vs !!! j)); [done|by apply Hap].
  - destruct (is_paused (vs !!! j)); [|by apply Hap].
    apply IH; [by rewrite controls_length|by apply controls_keep].
Qed.

Lemma run_calls_other (P : VideoItem → Prop) (j k : nat)
  (cs : list hook_call) (aft : list control_op) (out : option exn)
  (vs : list VideoItem) :
  (∀ f v, handler f → P v → P (f v)) →
  j ≠ k → k < length vs → P (vs !!! k) →
  P (download_store (run_calls j cs aft out vs) !!! k).
Proof.
  intros HP Hne. revert vs. induction cs as [|c cs IH]; intros vs Hk Hv;
    simpl.
  - destruct out; simpl; by apply controls_keep.
  - assert (P (hook_store (video_progress_hook (event c) j (sleeps c)
                             (controls (before c) vs)) !!! k)) as Hh.
    { unfold video_progress_hook.
      destruct (is_cancelled _); simpl; [by apply controls_keep|].
      apply pause_loop_other;
        [done|done|by rewrite controls_length|by apply controls_keep]. }
    pose proof (hook_length (event c) j (sleeps c) (controls (before c) vs))
      as Hl. rewrite controls_length in Hl.
    destruct (video_progress_hook _ _ _ _) as [vs1|e vs1|vs1];
      simpl in *; [|done|done].
    apply IH; [lia|done].
Qed.

Lemma download_other (P : VideoItem → Prop) (j k : nat) (sc : script)
  (vs : list VideoItem) :
  (∀ f v, handler f → P v → P (f v)) →
  j ≠ k → k < length vs → P (vs !!! k) →
  P (single_store (download_single_video j sc vs) !!! k).
Proof.
  intros HP Hne Hk Hv. unfold download_single_video, ydl_download.
  pose proof (run_calls_other P j k (calls sc) (after sc) (outcome sc)
                (alter begin_download j vs) HP Hne) as Hrun.
  rewrite length_alter, list_lookup_total_alter_ne in Hrun by done.
  specialize (Hrun Hk Hv).
  destruct (run_calls _ _ _ _ _) as [vs1|e vs1|vs1]; simpl in *;
    [done| |done].
  by rewrite list_lookup_total_alter_ne.
Qed.

Lemma download_keeps_inert (j k : nat) (sc : script) (vs : list VideoItem) :
  j ≠ k → k < length vs → inert (vs !!! k) →
  single_store (download_single_video j sc vs) !!! k = vs !!! k.
Proof.
  intros Hne Hk Hin.
  apply (download_other (λ v, v = vs !!! k)); [|done|done|done].
  intros f v Hf ->. by apply handler_inert.
Qed.

Lemma run_loop_keeps_inert (env : nat → script) (total k : nat)
  (idxs : list nat) (st : loop_state) :
  k ∉ idxs → k < length (videos st) → inert (videos st !!! k) →
  videos (run_loop env total idxs st) !!! k = videos st !!! k.
Proof.
  revert st. induction idxs as [|i idxs IH]; intros st Hnot Hk Hin; [done|].
  apply not_elem_of_cons in Hnot as [Hne Hnot].
  unfold run_loop in *. simpl.
  assert (videos (loop_body env total st i) !!! k = videos st !!! k) as Hb.
  { destruct (loop_body_videos env total st i) as [->| ->]; [done|].
    by apply download_keeps_inert. }
  rewrite IH; [done|done|by rewrite loop_body_length|by rewrite Hb].
Qed.

Lemma loop_body_log (env : nat → script) (total : nat) (st : loop_state)
  (i : nat) :
  ∃ rest, call_log (loop_body env total st i) = call_log st ++ rest ∧
          Forall (λ ev, call_index ev = i) rest.
Proof.
  unfold loop_body.
  destruct (hung st); [exists []; by rewrite app_nil_r|].
  destruct (status_in _ _); [exists []; by rewrite app_nil_r|].
  destruct (download_single_video _ _ _).
  - exists [Begin i; End i]. case_bool_decide; simpl;
      (split; [done|by repeat constructor]).
  - exists [Begin i]. split; [done|by repeat constructor].
Qed.

Lemma run_loop_log (env : nat → script) (total : nat) (idxs : list nat)
  (st : loop_state) :
  ∃ rest, call_log (run_loop env total idxs st) = call_log st ++ rest ∧
          Forall (λ ev, call_index ev ∈ idxs) rest.
Proof.
  revert st. induction idxs as [|i idxs IH]; intros st.
  - exists []. split; [by rewrite app_nil_r|constructor].
  - unfold run_loop in *. simpl.
    destruct (loop_body_log env total st i) as (r1 & Hl1 & Hi1).
    destruct (IH (loop_body env total st i)) as (r2 & Hl2 & Hi2).
    exists (r1 ++ r2). split; [by rewrite Hl2, Hl1, app_assoc|].
    apply Forall_app. split.
    + eapply Forall_impl; [exact Hi1|]. intros ev ->. by left.
    + eapply Forall_impl; [exact Hi2|]. intros ev Hev. by right.
Qed.

(** C4, as stated, fails: the download of the only video raises an
    exception that has no text; the video is marked failed and the
    stored error message is empty. *)
Lemma failed_item_message_counterexample :
  (∃ vs', ydl_download 0 silent_failure [begin_download (sample_item "a")]
            = Raised (Exception "") vs') ∧
  status (videos (_download_all_videos_thread (λ _, silent_failure)
                    [sample_item "a"] 0) !!! 0) = "failed" ∧
  error_message (videos (_download_all_videos_thread (λ _, silent_failure)
                           [sample_item "a"] 0) !!! 0) = "".
Proof.
  split; [eexists; vm_compute; reflexivity|].
  split; vm_compute; reflexivity.
Qed.

(** C4, amended: when the download of the video at position k, reached
    by the loop and attempted, raises an error [e]:
    - the videos before k are processed as in any run that treats them
      the same way, whatever happens at k;
    - the call for k returns, k is marked ['failed'] with [str(e)] as
      its stored message (non-empty exactly when the error has a text),
      and the count of completed videos and the progress bar are left
      as they were;
    - the loop goes on with the positions after k, and k keeps that
      status and message to the end;
    - in the log of calls the one call for k comes after the calls for
      earlier positions and before those for later positions (no
      retry), and when the loop finishes the log holds one call for
      every position whose video was not ['completed'] or ['failed']
      when reached. *)
Theorem failure_does_not_stop_loop (env : nat → script)
  (vs vs' : list VideoItem) (bar : Q) (k : nat) (e : exn) :
  k < length vs →
  hung (visit env vs bar k) = false →
  attempted env vs bar k = true →
  ydl_download k (env k)
    (alter begin_download k (videos (visit env vs bar k))) = Raised e vs' →
  (∀ env', (∀ j, j < k → env' j = env j) →
           visit env' vs bar k = visit env vs bar k) ∧
  visit env vs bar (S k)
    = mkLoop (alter (mark_failed e) k vs')
             (completed (visit env vs bar k))
             (overall_progress (visit env vs bar k))
             (call_log (visit env vs bar k) ++ [Begin k; End k]) false ∧
  _download_all_videos_thread env vs bar
    = run_loop env (length vs) (seq (S k) (length vs - S k))
               (visit env vs bar (S k)) ∧
  status (videos (_download_all_videos_thread env vs bar) !!! k)
    = "failed" ∧
  error_message (videos (_download_all_videos_thread env vs bar) !!! k)
    = exn_str e ∧
  (∃ post,
     call_log (_download_all_videos_thread env vs bar)
       = call_log (visit env vs bar k) ++ [Begin k; End k] ++ post ∧
     Forall (λ ev, call_index ev < k) (call_log (visit env vs bar k)) ∧
     Forall (λ ev, k < call_index ev) post) ∧
  (hung (_download_all_videos_thread env vs bar) = false →
   call_log (_download_all_videos_thread env vs bar)
     = expected_log (attempted env vs bar) (length vs)).
Proof.
  intros Hk Hh Hatt Hraise.
  pose proof (visit_length env vs bar k) as Hlen.
  destruct (raised_download_fails k (env k) e
              (videos (visit env vs bar k)) vs') as (Hdone & Hst & Hmsg);
    [lia|done|].
  assert (visit env vs bar (S k)
          = mkLoop (alter (mark_failed e) k vs')
              (completed (visit env vs bar k))
              (overall_progress (visit env vs bar k))
              (call_log (visit env vs bar k) ++ [Begin k; End k]) false)
    as Hnext.
  { rewrite visit_S. unfold loop_body. rewrite Hh.
    unfold attempted in Hatt. apply negb_true_iff in Hatt. rewrite Hatt.
    rewrite Hdone. rewrite bool_decide_eq_false_2; [done|].
    rewrite Hst. discriminate. }
  pose proof (loop_continues env vs bar (S k) Hk) as Hcont.
  assert (videos (_download_all_videos_thread env vs bar) !!! k
          = alter (mark_failed e) k vs' !!! k) as Hkeep.
  { rewrite Hcont, Hnext.
    rewrite run_loop_keeps_inert; simpl; [done| | |].
    - intros Hin. apply elem_of_seq in Hin. lia.
    - pose proof (visit_length env vs bar (S k)) as Hl.
      rewrite Hnext in Hl. simpl in Hl. lia.
    - unfold inert. rewrite Hst. split; discriminate. }
  split; [intros env'; apply visit_prefix|].
  split; [exact Hnext|]. split; [exact Hcont|].
  split; [by rewrite Hkeep|]. split; [by rewrite Hkeep|]. split.
  - destruct (run_loop_log env (length vs) (seq (S k) (length vs - S k))
                (visit env vs bar (S k))) as (post & Hlog & Hpost).
    exists post. rewrite Hcont, Hlog, Hnext. simpl.
    split; [by rewrite <- app_assoc|]. split.
    + destruct (run_loop_log env (length vs) (seq 0 k) (loop_start vs bar))
        as (pre & Hpre & Hbound).
      unfold visit. rewrite Hpre. simpl.
      eapply Forall_impl; [exact Hbound|].
      intros ev Hev. apply elem_of_seq in Hev. lia.
    + eapply Forall_impl; [exact Hpost|].
      intros ev Hev. apply elem_of_seq in Hev. lia.
  - apply (call_log_shape env vs bar (length vs)).
Qed.

Lemma failure_does_not_stop_loop_witness :
  status (videos (_download_all_videos_thread second_fails
                    three_pending 0) !!! 1) = "failed" ∧
  error_message (videos (_download_all_videos_thread second_fails
                           three_pending 0) !!! 1)
    = "ERROR: unable to download video data" ∧
  call_log (_download_all_videos_thread second_fails three_pending 0)
    = expected_log (attempted second_fails three_pending 0) 3.
Proof.
  destruct (failure_does_not_stop_loop second_fails three_pending
              (download_store
                 (ydl_download 1 (second_fails 1)
                    (alter begin_download 1
                       (videos (visit second_fails three_pending 0 1)))))
              0 1 (DownloadError "ERROR: unable to download video data"))
    as (_ & _ & _ & H1 & H2 & _ & H3).
  - vm_compute. lia.
  - vm_compute. reflexivity.
  - vm_compute. reflexivity.
  - vm_compute. reflexivity.
  - split; [exact H1|]. split; [exact H2|]. apply H3.
    vm_compute. reflexivity.
Defined.

(** The run in which the second of three downloads fails. *)
Example second_fails_run :
  call_log (_download_all_videos_thread second_fails three_pending 0)
    = [Begin 0; End 0; Begin 1; End 1; Begin 2; End 2] ∧
  (status <$> videos (_download_all_videos_thread second_fails
                        three_pending 0))
    = ["completed"; "failed"; "completed"] ∧
  completed (_download_all_videos_thread second_fails three_pending 0) = 2.
Proof. vm_compute. repeat split. Qed.

(** ** Download-all loop: when every download succeeds *)

Lemma handler_to_download (f : VideoItem → VideoItem) (v : VideoItem) :
  handler f → to_download v → to_download (f v).
Proof.
  intros Hf Hv. unfold to_download in *.
  destruct Hf; try done;
    unfold toggle_video, pause_video, resume_video, cancel_video;
    repeat case_bool_decide; try done;
    destruct (status_in (status v) ["downloading"; "paused"]); done.
Qed.

Lemma completed_inert (v : VideoItem) : status v = "completed" → inert v.
Proof. intros Hs. unfold inert. rewrite Hs. split; discriminate. Qed.

Lemma handler_completed (f : VideoItem → VideoItem) (v : VideoItem) :
  handler f → status v = "completed" → status (f v) = "completed".
Proof.
  intros Hf Hs. by rewrite (handler_inert f v Hf (completed_inert v Hs)).
Qed.

Lemma controls_app (ops1 ops2 : list control_op) (vs : list VideoItem) :
  controls (ops1 ++ ops2) vs = controls ops2 (controls ops1 vs).
Proof. unfold controls. apply foldl_app. Qed.

(** An invocation that returns has handled its event on the list as the
    UI thread left it. *)
Lemma pause_loop_returns (d : pydict) (i : nat)
  (sl : list (list control_op)) (vs vs' : list VideoItem) :
  pause_loop d i sl vs = HookReturn vs' →
  ∃ ops v', hook_body d (controls ops vs !!! i) = (v', None) ∧
            vs' = <[i := v']> (controls ops vs).
Proof.
  assert (∀ vs, after_pause d i vs = HookReturn vs' →
            ∃ ops v', hook_body d (controls ops vs !!! i) = (v', None) ∧
                      vs' = <[i := v']> (controls ops vs)) as Hap.
  { intros vs0 Hr. unfold after_pause in Hr. exists [].
    change (controls [] vs0) with vs0.
    destruct (hook_body d (vs0 !!! i)) as [v' [e|]]; [discriminate|].
    exists v'. by inversion Hr. }
  revert vs. induction sl as [|ops sl IH]; intros vs Hr; simpl in Hr.
  - destruct (is_paused (vs !!! i)); [discriminate|by apply Hap].
  - destruct (is_paused (vs !!! i)); [|by apply Hap].
    destruct (IH _ Hr) as (ops' & v' & Hb & ->).
    exists (ops ++ ops'), v'. by rewrite controls_app.
Qed.

(** A download that reports the ['finished'] phase and returns leaves
    its item completed, whatever the control surface did meanwhile. *)
Lemma run_calls_returned_completed (i : nat) (cs : list hook_call)
  (aft : list control_op) (out : option exn) (vs vs1 : list VideoItem) :
  i < length vs →
  Exists reports_finished cs ∨ status (vs !!! i) = "completed" →
  run_calls i cs aft out vs = Returned vs1 →
  status (vs1 !!! i) = "completed".
Proof.
  revert vs. induction cs as [|c cs IH]; intros vs Hi Hcase Hr;
    simpl in Hr.
  - destruct Hcase as [Hex|Hs]; [by apply Exists_nil in Hex|].
    destruct out; [discriminate|]. inversion Hr; subst.
    apply (controls_keep (λ v, status v = "completed"));
      [apply handler_completed|done|done].
  - destruct (video_progress_hook _ _ _ _) as [vs'|e vs'|vs'] eqn:Hh;
      [|discriminate|discriminate].
    unfold video_progress_hook in Hh.
    destruct (is_cancelled _); [discriminate|].
    apply pause_loop_returns in Hh as (ops & v' & Hb & ->).
    rewrite <- controls_app in *.
    set (s := controls (before c ++ ops) vs) in *.
    assert (length s = length vs) as Hl by apply controls_length.
    apply (IH (<[i := v']> s)); [by rewrite length_insert, Hl| |done].
    rewrite list_lookup_total_insert_eq by lia.
    pose proof (hook_body_status (event c) (s !!! i)) as [Hfin Hkeep].
    rewrite Hb in Hfin, Hkeep. simpl in *.
    destruct Hcase as [Hex|Hs].
    + apply Exists_cons in Hex as [Hc0|Hex]; [right; by apply Hfin|by left].
    + right. apply Hkeep.
      apply (controls_keep (λ v, status v = "completed"));
        [apply handler_completed|done|done].
Qed.

Lemma download_returned_completed (i : nat) (sc : script)
  (vs vs1 : list VideoItem) :
  i < length vs →
  Exists reports_finished (calls sc) →
  ydl_download i sc (alter begin_download i vs) = Returned vs1 →
  download_single_video i sc vs = Done vs1 ∧
  status (vs1 !!! i) = "completed".
Proof.
  intros Hi Hfin Hr. unfold download_single_video. rewrite Hr.
  split; [done|].
  apply (run_calls_returned_completed i (calls sc) (after sc) (outcome sc)
           (alter begin_download i vs));
    [by rewrite length_alter|by left|done].
Qed.

(** A download that [succeeds] returns from every state. *)
Lemma succeeds_returns (i : nat) (sc : script) (vs : list VideoItem) :
  i < length vs → succeeds sc →
  Exists reports_finished (calls sc) ∧
  ∃ vs1, ydl_download i sc (alter begin_download i vs) = Returned vs1.
Proof.
  intros Hi (Hout & Haft & Hq & Hfin). split; [done|].
  unfold ydl_download. rewrite Hout, Haft.
  destruct (run_calls_quiet i (calls sc) (alter begin_download i vs) Hq)
    as (v' & Hrun & _).
  - by rewrite length_alter.
  - by rewrite list_lookup_total_alter_eq.
  - by rewrite list_lookup_total_alter_eq.
  - eauto.
Qed.

Lemma all_succeed_invariant (env : nat → script) (vs : list VideoItem)
  (bar : Q) (n : nat) :
  (∀ i, i < length vs → returns_finished env vs bar i) →
  (∀ i, i < length vs → to_download (vs !!! i)) →
  n ≤ length vs →
  hung (visit env vs bar n) = false ∧
  completed (visit env vs bar n) = n ∧
  (∀ j, j < n → status (videos (visit env vs bar n) !!! j) = "completed") ∧
  (∀ j, n ≤ j → j < length vs →
        to_download (videos (visit env vs bar n) !!! j)) ∧
  (0 < n → overall_progress (visit env vs bar n)
           = overall_percent n (length vs)).
Proof.
  intros Hsucc Hfresh. induction n as [|n IH]; intros Hn.
  - repeat split; try done; try (intros; lia).
    intros j _ Hj. by apply Hfresh.
  - destruct IH as (Hh & Hc & Hdone & Hrest & _); [lia|].
    pose proof (visit_length env vs bar n) as Hl.
    destruct (Hsucc n) as (Hfin & vs1 & Hret); [lia|].
    destruct (download_returned_completed n (env n)
                (videos (visit env vs bar n)) vs1) as (Hrun & Hst);
      [lia|done|done|].
    assert (to_download (videos (visit env vs bar n) !!! n)) as Hf
      by (apply Hrest; lia).
    assert (vs1 = single_store (download_single_video n (env n)
                                  (videos (visit env vs bar n)))) as Hvs1
      by (by rewrite Hrun).
    rewrite visit_S. unfold loop_body. rewrite Hh.
    unfold to_download in Hf. rewrite Hf, Hrun.
    rewrite bool_decide_eq_true_2 by done. simpl. rewrite Hc.
    repeat split; try done.
    + intros j Hj. destruct (decide (j = n)) as [->|Hne]; [done|].
      rewrite Hvs1.
      apply (download_other (λ v, status v = "completed"));
        [apply handler_completed|done|lia|apply Hdone; lia].
    + intros j Hj Hjl. rewrite Hvs1.
      apply (download_other to_download);
        [apply handler_to_download|lia|lia|apply Hrest; lia].
Qed.

(** C3, as stated, fails: a video that failed in an earlier run is
    passed over, stays failed, and no progress is reported; with one of
    two videos already completed, the run that completes the other
    reports 50%. *)
Lemma all_succeed_counterexample :
  succeeds ok_script ∧
  status (videos (_download_all_videos_thread (λ _, ok_script)
                    failed_before 0) !!! 0) = "failed" ∧
  (overall_progress (_download_all_videos_thread (λ _, ok_script)
                       failed_before 0) == 0)%Q ∧
  Forall (λ v, status v = "completed")
    (videos (_download_all_videos_thread (λ _, ok_script) half_done 0)) ∧
  (overall_progress (_download_all_videos_thread (λ _, ok_script)
                       half_done 0) == 50)%Q.
Proof.
  split.
  { repeat split.
    - repeat constructor; intros v; vm_compute; reflexivity.
    - apply Exists_cons. right. apply Exists_cons. left.
      vm_compute. reflexivity. }
  split; [vm_compute; reflexivity|].
  split; [vm_compute; reflexivity|].
  split; [|vm_compute; reflexivity].
  vm_compute. repeat constructor.
Qed.

(** C3, amended: for a non-empty list of N videos none of which is
    ['completed'] or ['failed'] when the loop starts, if every per-item
    download succeeds (the capability invokes the callback with the
    ['finished'] phase and the call returns without raising) then the
    loop finishes, every one of the N videos has status ['completed'],
    the count of completed videos is N and the value given to the
    overall progress bar is [completed / total * 100 = 100]. *)
Theorem all_succeed_all_completed (env : nat → script)
  (vs : list VideoItem) (bar : Q) :
  vs ≠ [] →
  Forall to_download vs →
  (∀ i, i < length vs → returns_finished env vs bar i) →
  hung (_download_all_videos_thread env vs bar) = false ∧
  length (videos (_download_all_videos_thread env vs bar)) = length vs ∧
  Forall (λ v, status v = "completed")
    (videos (_download_all_videos_thread env vs bar)) ∧
  completed (_download_all_videos_thread env vs bar) = length vs ∧
  overall_progress (_download_all_videos_thread env vs bar)
    = overall_percent (length vs) (length vs) ∧
  (overall_progress (_download_all_videos_thread env vs bar) == 100)%Q.
Proof.
  intros Hne Hfresh Hsucc.
  assert (0 < length vs) as Hpos by (destruct vs; simpl; [done|lia]).
  assert (∀ i, i < length vs → to_download (vs !!! i)) as Hfresh'.
  { intros i Hi. rewrite Forall_lookup in Hfresh.
    apply (Hfresh i). by apply list_lookup_lookup_total_lt. }
  change (_download_all_videos_thread env vs bar)
    with (visit env vs bar (length vs)).
  pose proof (visit_length env vs bar (length vs)) as Hl.
  destruct (all_succeed_invariant env vs bar (length vs) Hsucc Hfresh')
    as (Hh & Hc & Hdone & _ & Hbar); [done|].
  split; [done|]. split; [done|]. split.
  - apply Forall_lookup. intros j v Hj.
    apply list_lookup_alt in Hj as [Hlt <-]. apply Hdone. lia.
  - split; [done|]. rewrite (Hbar Hpos). split; [done|].
    by apply overall_percent_all.
Qed.

Lemma all_succeed_all_completed_witness :
  Forall (λ v, status v = "completed")
    (videos (_download_all_videos_thread (λ _, ok_script)
               [sample_item "a"; sample_item "b"] 0)) ∧
  (overall_progress (_download_all_videos_thread (λ _, ok_script)
                       [sample_item "a"; sample_item "b"] 0) == 100)%Q.
Proof.
  destruct (all_succeed_all_completed (λ _, ok_script)
              [sample_item "a"; sample_item "b"] 0)
    as (_ & _ & H1 & _ & _ & H2).
  - discriminate.
  - repeat constructor.
  - intros i Hi. split.
    + apply Exists_cons. right. apply Exists_cons. left.
      vm_compute. reflexivity.
    + destruct i as [|[|i]]; [| |simpl in Hi; lia];
        eexists; vm_compute; reflexivity.
  - split; [exact H1|exact H2].
Defined.

(** Pausing and resuming during a download does not prevent it from
    completing. *)
Example paused_and_resumed_download :
  status <$> single_store
    (download_single_video 0
       (mkScript [ mkCall [] (downloading_event 10 100) [];
                   mkCall [PauseAll] (downloading_event 20 100)
                          [[]; [ResumeAll]];
                   mkCall [] finished_event [] ] [] None)
       [sample_item "a"])
  = ["completed"].
Proof. vm_compute. reflexivity. Qed.

(** * Further properties *)

(** ** Playlist analyzer *)



Lemma process_entries_fresh (idx : nat) (es : list (option pydict)) :
  Forall fresh (process_entries idx es).
Proof.
  revert idx. induction es as [|[video|] es IH]; intros idx; simpl.
  - constructor.
  - destruct (truthy_dict video && truthy (dict_get video "id" PyNone));
      [|apply IH].
    constructor; [|apply IH]. repeat split.
  - apply IH.
Qed.

(** X2: every item the analysis leaves in [self.videos], for any
    result of the extraction, is in the state of a new item: pending,
    progress 0, no bytes, no error, neither paused nor cancelled; so
    none of them is passed over by the download-all loop. *)
Theorem analysis_items_fresh (info : option info_dict) :
  Forall fresh (_process_analysis_results info).1 ∧
  Forall to_download (_process_analysis_results info).1.
Proof.
  assert (Forall fresh (_process_analysis_results info).1) as Hf.
  { unfold _process_analysis_results. destruct info as [info|]; simpl.
    - case_bool_decide; simpl.
      + destruct (info_entries info); simpl;
          [apply process_entries_fresh|constructor].
      + constructor; [|constructor]. repeat split.
    - constructor. }
  split; [exact Hf|].
  eapply Forall_impl; [exact Hf|].
  intros v (Hs & _). unfold to_download. rewrite Hs.
  vm_compute. reflexivity.
Qed.

Lemma process_entries_app (idx : nat) (es1 es2 : list (option pydict)) :
  process_entries idx (es1 ++ es2)
    = process_entries idx es1 ++ process_entries (idx + length es1) es2.
Proof.
  revert idx. induction es1 as [|[video|] es1 IH]; intros idx; simpl.
  - by rewrite Nat.add_0_r.
  - rewrite IH. replace (S idx + length es1) with (idx + S (length es1))
      by lia.
    by destruct (truthy_dict video && truthy (dict_get video "id" PyNone)).
  - rewrite IH. by replace (S idx + length es1) with (idx + S (length es1))
      by lia.
Qed.

(** X3: the item made from the entry at position [k] of a playlist
    stands after the items of the kept entries before it; it has the
    entry's id, the URL ["https://www.youtube.com/watch?v=<id>"], and
    the value of the entry's ['title'] or, when that key is missing,
    ["Video n"] with [n = k + 1], the position of the entry among all
    entries, skipped ones included. *)
Theorem playlist_item_of_entry (info : info_dict)
  (es : list (option pydict)) (k : nat) (video : pydict) :
  is_playlist info →
  info_entries info = Some es →
  es !! k = Some (Some video) →
  has_id (Some video) = true →
  ∃ v, (_process_analysis_results (Some info)).1 !! kept_before k es
         = Some v ∧
       Some (video_id v) = video !! "id" ∧
       url v = PyStr ("https://www.youtube.com/watch?v="
                      +:+ py_str (video_id v)) ∧
       title v = dict_get video "title"
                   (PyStr ("Video " +:+ str_of_nat (S k))).
Proof.
  intros Hp He Hk Hid.
  unfold _process_analysis_results, is_playlist in *.
  rewrite bool_decide_eq_true_2 by done. rewrite He. simpl.
  rewrite <- (take_drop_middle es k (Some video) Hk).
  assert (length (take k es) = k) as Hlen.
  { apply length_take_le. apply lookup_lt_Some in Hk. lia. }
  unfold kept_before.
  rewrite take_app_length' by done.
  rewrite process_entries_app. simpl in *. rewrite Hid, Hlen.
  eexists. split.
  - rewrite lookup_app_r by done. rewrite Nat.sub_diag. reflexivity.
  - simpl. apply andb_true_iff in Hid as [_ Hid].
    pose proof (truthy_get_id video (PyStr (str_of_nat (1 + k))) Hid) as H1.
    pose proof (truthy_get_id video (PyStr "") Hid) as H2.
    split; [by rewrite H1|]. split; [|done].
    unfold dict_get in *. destruct (video !! "id"); [done|discriminate].
Qed.

Lemma playlist_item_of_entry_witness :
  ∃ v, (_process_analysis_results (Some gap_playlist)).1 !! 0 = Some v ∧
       url v = PyStr ("https://www.youtube.com/watch?v="
                      +:+ py_str (video_id v)) ∧
       title v = PyStr "First".
Proof.
  destruct (playlist_item_of_entry gap_playlist gap_entries 1
              {[ "id" := PyStr "abc"; "title" := PyStr "First" ]})
    as (v & Hl & _ & Hu & Ht); try (vm_compute; reflexivity).
  exists v. split; [exact Hl|]. split; [exact Hu|].
  rewrite Ht. vm_compute. reflexivity.
Defined.

(** X4: the three ways in which processing the result of an analysis
    fails.  For a result of [None] and for a playlist without
    ['entries'] the exception leaves [self.videos] empty.  For a
    playlist with entries the only exception is the one of the tree
    ([TclError]), raised exactly when two of the kept entries have the
    same row identifier; it comes after the list has been filled, so
    the list then holds an item for every kept entry, the repeated ones
    included: this failure is not all-or-nothing. *)
Theorem analysis_failure_cases :
  _process_analysis_results None
    = ([], Some (AttributeError "'NoneType' object has no attribute 'get'")) ∧
  (∀ info, is_playlist info → info_entries info = None →
           _process_analysis_results (Some info)
             = ([], Some (KeyError "entries"))) ∧
  (∀ info es, is_playlist info → info_entries info = Some es →
              let r := _process_analysis_results (Some info) in
              (r.2 = None ↔ NoDup (omap entry_row es)) ∧
              (∀ e, r.2 = Some e → ∃ msg, e = TclError msg) ∧
              video_id <$> r.1 = omap entry_id es).
Proof.
  split; [reflexivity|]. split.
  - intros info Hp He. unfold _process_analysis_results, is_playlist in *.
    rewrite bool_decide_eq_true_2 by done. by rewrite He.
  - intros info es Hp He. unfold _process_analysis_results, is_playlist in *.
    rewrite bool_decide_eq_true_2 by done. rewrite He. cbn [fst snd].
    split; [apply playlist_rows_accepted|].
    split; [apply insert_rows_raises|apply process_entries_ids].
Qed.

Lemma analysis_failure_cases_witness :
  let r := _process_analysis_results (Some dup_playlist) in
  (r.2 = None ↔ NoDup (omap entry_row dup_entries)) ∧
  (∀ e, r.2 = Some e → ∃ msg, e = TclError msg) ∧
  video_id <$> r.1 = omap entry_id dup_entries.
Proof.
  apply (proj2 (proj2 analysis_failure_cases) dup_playlist dup_entries);
    reflexivity.
Defined.



(** ** Control surface *)

Lemma pause_resume_item (v : VideoItem) :
  status v = "downloading" → is_paused v = false →
  resume_video (pause_video v) = v.
Proof.
  intros Hs Hp. destruct v. simpl in *. subst. vm_compute. reflexivity.
Qed.

Lemma resume_pause_item (v : VideoItem) :
  status v = "paused" → is_paused v = true →
  pause_video (resume_video v) = v.
Proof.
  intros Hs Hp. destruct v. simpl in *. subst. vm_compute. reflexivity.
Qed.

(** X6: pausing and resuming undo each other: a downloading video with
    a clear pause flag is back as it was after pause then resume, a
    paused one after resume then pause; and "Pause All" followed by
    "Resume All" gives the list back when no video was already paused
    (one that was is resumed too). *)
Theorem pause_resume_round_trip :
  (∀ v, status v = "downloading" → is_paused v = false →
        resume_video (pause_video v) = v) ∧
  (∀ v, status v = "paused" → is_paused v = true →
        pause_video (resume_video v) = v) ∧
  (∀ vs, Forall running_or_idle vs →
         resume_all_downloads (pause_all_downloads vs) = vs).
Proof.
  split; [apply pause_resume_item|]. split; [apply resume_pause_item|].
  intros vs Hall. unfold resume_all_downloads, pause_all_downloads.
  induction Hall as [|v vs [Hnp Hd] _ IH]; [done|].
  rewrite !fmap_cons. f_equal; [|exact IH].
  destruct (decide (status v = "downloading")) as [Hs|Hs].
  - apply pause_resume_item; auto.
  - unfold pause_video. rewrite bool_decide_eq_false_2 by done.
    unfold resume_video. by rewrite bool_decide_eq_false_2.
Qed.

(** A video paused before "Pause All" does not survive the round trip:
    "Resume All" resumes it too. *)
Example resume_all_resumes_older_pause :
  status <$> resume_all_downloads
               (pause_all_downloads
                  [set_status "paused" (set_is_paused true (sample_item "c"))])
  = ["downloading"].
Proof. vm_compute. reflexivity. Qed.

Lemma pause_video_idem (v : VideoItem) :
  pause_video (pause_video v) = pause_video v.
Proof.
  destruct (decide (status v = "downloading")) as [Hs|Hs].
  - destruct v. simpl in *. subst. vm_compute. reflexivity.
  - assert (pause_video v = v) as Hid
      by (unfold pause_video; by rewrite bool_decide_eq_false_2).
    by rewrite !Hid.
Qed.

Lemma resume_video_idem (v : VideoItem) :
  resume_video (resume_video v) = resume_video v.
Proof.
  destruct (decide (status v = "paused")) as [Hs|Hs].
  - destruct v. simpl in *. subst. vm_compute. reflexivity.
  - assert (resume_video v = v) as Hid
      by (unfold resume_video; by rewrite bool_decide_eq_false_2).
    by rewrite !Hid.
Qed.

Lemma cancel_video_idem (v : VideoItem) :
  cancel_video (cancel_video v) = cancel_video v.
Proof.
  destruct (status_in (status v) ["downloading"; "paused"]) eqn:Hs.
  - assert (cancel_video v
            = set_status "cancelled" (set_is_cancelled true v)) as Hc
      by (unfold cancel_video; by rewrite Hs).
    rewrite Hc. destruct v. vm_compute. reflexivity.
  - assert (cancel_video v = v) as Hid
      by (unfold cancel_video; by rewrite Hs).
    by rewrite !Hid.
Qed.

(** X7: pressing "Pause All", "Resume All" or "Cancel All" twice in a
    row does what pressing it once does. *)
Theorem control_all_idempotent (vs : list VideoItem) :
  pause_all_downloads (pause_all_downloads vs) = pause_all_downloads vs ∧
  resume_all_downloads (resume_all_downloads vs) = resume_all_downloads vs ∧
  cancel_all_downloads (cancel_all_downloads vs) = cancel_all_downloads vs.
Proof.
  unfold pause_all_downloads, resume_all_downloads, cancel_all_downloads.
  rewrite <- !list_fmap_compose.
  repeat split; apply list_fmap_ext; intros i v _; simpl.
  - apply pause_video_idem.
  - apply resume_video_idem.
  - apply cancel_video_idem.
Qed.

(** X8: the control surface acts on downloading and paused videos only:
    whatever sequence of operations is run, a video whose status is
    anything else (pending, completed, failed, cancelled, ...) is left
    exactly as it was. *)
Theorem controls_leave_others_alone (ops : list control_op)
  (vs : list VideoItem) (i : nat) :
  i < length vs →
  status (vs !!! i) ≠ "downloading" → status (vs !!! i) ≠ "paused" →
  controls ops vs !!! i = vs !!! i.
Proof. intros Hi Hd Hp. by apply controls_inert. Qed.

Lemma controls_leave_others_alone_witness :
  controls [PauseAll; CancelAll; DoubleClick "b"; ResumeAll] second_run !!! 1
    = second_run !!! 1.
Proof.
  apply (controls_leave_others_alone
           [PauseAll; CancelAll; DoubleClick "b"; ResumeAll] second_run 1).
  - vm_compute. lia.
  - vm_compute. discriminate.
  - vm_compute. discriminate.
Defined.

(** X9: the control surface writes nothing but the status and the two
    flags: after any sequence of operations the list has the same
    length and every video has the id, title, URL, duration, thumbnail,
    progress, speed, ETA, byte counters, error message and output file
    name it had. *)
Theorem controls_write_status_and_flags_only (ops : list control_op)
  (vs : list VideoItem) :
  length (controls ops vs) = length vs ∧
  ∀ i, i < length vs → data (controls ops vs !!! i) = data (vs !!! i).
Proof.
  split; [apply controls_length|].
  intros i Hi. apply controls_preserve; [|done].
  intros f v Hf. by apply handler_data.
Qed.

Lemma controls_write_status_and_flags_only_witness :
  data (controls [PauseAll; CancelAll; ResumeAll] twins !!! 1)
    = data (twins !!! 1).
Proof.
  apply (proj2 (controls_write_status_and_flags_only
                  [PauseAll; CancelAll; ResumeAll] twins)).
  vm_compute. lia.
Defined.

Lemma truthy_str (s : string) : truthy (PyStr s) = true ↔ s ≠ "".
Proof.
  simpl. rewrite negb_true_iff. split.
  - intros He ->. by rewrite String.eqb_refl in He.
  - intros Hne. apply String.eqb_neq. done.
Qed.

Lemma double_click_at (item : string) (k : nat) (vs : list VideoItem) :
  item ≠ "" → first_with_id item k vs →
  on_video_double_click item vs = alter toggle_video k vs.
Proof.
  intros Hne [(v & Hk & Hid) Hfirst]. unfold on_video_double_click.
  rewrite (proj2 (truthy_str item) Hne).
  destruct (list_find _ vs) as [[k' w]|] eqn:Hfind.
  - apply list_find_Some in Hfind as (Hk' & Hid' & Hmin).
    destruct (Nat.lt_trichotomy k k') as [Hlt|[->|Hgt]]; [|done|].
    + exfalso. by apply (Hmin k v).
    + exfalso. by apply (Hfirst k' w).
  - apply list_find_None in Hfind. rewrite Forall_lookup in Hfind.
    exfalso. by apply (Hfind k v).
Qed.

(** X10: a double click toggles the first video whose id is the row
    under the pointer, and only that one (a second video with the same
    id is never reached); with no row under the pointer, or a row that
    matches no video, nothing changes. *)
Theorem double_click_toggles_first_match (item : string)
  (vs : list VideoItem) :
  (item = "" → on_video_double_click item vs = vs) ∧
  (Forall (λ v, video_id v ≠ PyStr item) vs →
   on_video_double_click item vs = vs) ∧
  (∀ k, item ≠ "" → first_with_id item k vs →
        on_video_double_click item vs = alter toggle_video k vs ∧
        ∀ j, j ≠ k → on_video_double_click item vs !! j = vs !! j).
Proof.
  split; [|split].
  - intros ->. reflexivity.
  - intros Hnone. unfold on_video_double_click.
    destruct (truthy (PyStr item)); [|done].
    destruct (list_find _ vs) as [[k w]|] eqn:Hfind; [|done].
    apply list_find_Some in Hfind as (Hk & Hid & _).
    rewrite Forall_lookup in Hnone. exfalso. by apply (Hnone k w).
  - intros k Hne Hfirst. rewrite (double_click_at item k vs Hne Hfirst).
    split; [done|]. intros j Hj. by apply list_lookup_alter_ne.
Qed.

Lemma double_click_toggles_first_match_witness :
  status <$> on_video_double_click "a" twins
    = ["pending"; "paused"; "downloading"].
Proof.
  destruct (double_click_toggles_first_match "a" twins) as (_ & _ & H).
  destruct (H 1) as [-> _].
  - discriminate.
  - split.
    + eexists. split; vm_compute; reflexivity.
    + intros j w Hj Hl. destruct j as [|j]; [|lia].
      vm_compute in Hl. inversion Hl. vm_compute. discriminate.
  - vm_compute. reflexivity.
Defined.

Lemma toggle_twice (v : VideoItem) :
  (status v = "downloading" ∧ is_paused v = false) ∨
  (status v = "paused" ∧ is_paused v = true) ∨
  (status v ≠ "downloading" ∧ status v ≠ "paused") →
  toggle_video (toggle_video v) = v.
Proof.
  intros [[Hs Hp]|[[Hs Hp]|[Hd Hp]]].
  - destruct v. simpl in *. subst. vm_compute. reflexivity.
  - destruct v. simpl in *. subst. vm_compute. reflexivity.
  - assert (toggle_video v = v) as Hid
      by (unfold toggle_video; by rewrite !bool_decide_eq_false_2).
    by rewrite !Hid.
Qed.

(** X11: double-clicking the same row twice gives the list back,
    provided the flag of the toggled video agrees with its status
    (downloading and not paused, or paused with the flag set). *)
Theorem double_click_twice (item : string) (k : nat) (v : VideoItem)
  (vs : list VideoItem) :
  first_with_id item k vs →
  vs !! k = Some v →
  (status v = "downloading" ∧ is_paused v = false) ∨
  (status v = "paused" ∧ is_paused v = true) →
  on_video_double_click item (on_video_double_click item vs) = vs.
Proof.
  intros Hfirst Hk Hv.
  destruct (decide (item = "")) as [->|Hne]; [done|].
  rewrite (double_click_at item k vs Hne Hfirst).
  rewrite (double_click_at item k (alter toggle_video k vs) Hne).
  - rewrite list_alter_alter_eq.
    rewrite (list_alter_ext _ (λ x, x) _ vs k); [|intros x Hx|done].
    + by apply list_alter_id.
    + simpl. rewrite Hk in Hx. inversion Hx; subst.
      apply toggle_twice. tauto.
  - destruct Hfirst as [(w & Hw & Hid) Hmin]. split.
    + exists (toggle_video w). rewrite list_lookup_alter_eq, Hw.
      split; [done|].
      pose proof (handler_data toggle_video w handler_toggle) as Hd.
      unfold data in Hd. congruence.
    + intros j x Hj Hx. rewrite list_lookup_alter_ne in Hx by lia.
      by apply (Hmin j x).
Qed.

Lemma double_click_twice_witness :
  on_video_double_click "a" (on_video_double_click "a" twins) = twins.
Proof.
  apply (double_click_twice "a" 1 (begin_download (sample_item "a")) twins).
  - split.
    + eexists. split; vm_compute; reflexivity.
    + intros j w Hj Hl. destruct j as [|j]; [|lia].
      vm_compute in Hl. inversion Hl. vm_compute. discriminate.
  - vm_compute. reflexivity.
  - left. split; vm_compute; reflexivity.
Defined.

(** X12: "Cancel All" on a paused video leaves its download blocked
    beyond the reach of the control surface: the status becomes
    ['cancelled'] while the pause flag stays set, and since no
    operation of the control surface (double click, "Pause All",
    "Resume All", "Cancel All") acts on a cancelled video, the callback
    blocked in the pause loop stays blocked through any sequence of
    them.  What clears the flag is the start of a new download of that
    video, as a second run of "Download All" makes when it reaches
    it. *)
Theorem controls_cannot_unblock_cancelled (d : pydict) (i : nat)
  (sleeps : list (list control_op)) (vs : list VideoItem) :
  i < length vs →
  status (vs !!! i) = "paused" → is_paused (vs !!! i) = true →
  ∃ vs', pause_loop d i sleeps (cancel_all_downloads vs) = HookBlocked vs' ∧
         status (vs' !!! i) = "cancelled" ∧
         is_paused (vs' !!! i) = true ∧
         is_cancelled (vs' !!! i) = true ∧
         is_paused (alter begin_download i vs' !!! i) = false.
Proof.
  intros Hi Hs Hp.
  assert (status_in (status (vs !!! i)) ["downloading"; "paused"] = true)
    as Hin by (rewrite Hs; vm_compute; reflexivity).
  destruct (cancel_all_sets_flag vs i Hi Hin) as [Hc Hst].
  pose proof (cancel_all_keeps_pause vs i Hi) as Hkp. rewrite Hp in Hkp.
  destruct (cancelled_paused_never_resumes d i sleeps
              (cancel_all_downloads vs)) as (vs' & Hb & Heq).
  - unfold cancel_all_downloads. by rewrite length_fmap.
  - done.
  - unfold inert. rewrite Hst. split; discriminate.
  - exists vs'. rewrite Heq. repeat split; try done.
    rewrite list_lookup_total_alter_eq; [done|].
    assert (length (hook_store (pause_loop d i sleeps
                                  (cancel_all_downloads vs)))
            = length (cancel_all_downloads vs)) as Hl
      by apply pause_loop_length.
    rewrite Hb in Hl. simpl in Hl. rewrite Hl.
    unfold cancel_all_downloads. by rewrite length_fmap.
Qed.

Lemma controls_cannot_unblock_cancelled_witness :
  ∃ vs', pause_loop (downloading_event 20 100) 0
           [[ResumeAll]; [DoubleClick "a"]; [PauseAll; ResumeAll]]
           (cancel_all_downloads paused_video) = HookBlocked vs' ∧
         status (vs' !!! 0) = "cancelled" ∧
         is_paused (vs' !!! 0) = true ∧
         is_cancelled (vs' !!! 0) = true ∧
         is_paused (alter begin_download 0 vs' !!! 0) = false.
Proof.
  apply (controls_cannot_unblock_cancelled (downloading_event 20 100) 0
           [[ResumeAll]; [DoubleClick "a"]; [PauseAll; ResumeAll]]
           paused_video).
  - vm_compute. lia.
  - vm_compute. reflexivity.
  - vm_compute. reflexivity.
Defined.

(** ** What a download and the loop preserve *)

Section ItemInvariant.

Variable P : nat → VideoItem → Prop.
Hypothesis P_handler : ∀ k f v, handler f → P k v → P k (f v).
Hypothesis P_begin : ∀ k v, P k v → P k (begin_download v).
Hypothesis P_event : ∀ k d v, P k v → P k (hook_body d v).1.
Hypothesis P_failed : ∀ k e v, P k v → P k (mark_failed e v).

Lemma controls_all (ops : list control_op) (vs : list VideoItem) :
  all_items P vs → all_items P (controls ops vs).
Proof.
  intros Hall k Hk. rewrite controls_length in Hk.
  apply (controls_keep (P k)); [apply P_handler|done|by apply Hall].
Qed.

Lemma alter_all (f : VideoItem → VideoItem) (i : nat)
  (vs : list VideoItem) :
  (∀ k v, P k v → P k (f v)) →
  all_items P vs → all_items P (alter f i vs).
Proof.
  intros Hf Hall k Hk. rewrite length_alter in Hk.
  rewrite list_lookup_total_alter. case_decide as Hd.
  - destruct Hd as [-> _]. by apply Hf, Hall.
  - by apply Hall.
Qed.

Lemma after_pause_all (d : pydict) (i : nat) (vs : list VideoItem) :
  all_items P vs → all_items P (hook_store (after_pause d i vs)).
Proof.
  intros Hall k Hk. rewrite after_pause_length in Hk.
  unfold after_pause.
  pose proof (P_event i d (vs !!! i)) as Hev.
  destruct (hook_body d (vs !!! i)) as [v' r]. simpl in Hev.
  assert (P k (<[i := v']> vs !!! k)) as Hgoal.
  { rewrite list_lookup_total_insert. case_decide as Hd.
    - destruct Hd as [-> Hi]. by apply Hev, Hall.
    - by apply Hall. }
  by destruct r.
Qed.

Lemma pause_loop_all (d : pydict) (i : nat) (sl : list (list control_op))
  (vs : list VideoItem) :
  all_items P vs → all_items P (hook_store (pause_loop d i sl vs)).
Proof.
  revert vs. induction sl as [|ops sl IH]; intros vs Hall; simpl.
  - destruct (is_paused (vs !!! i)); [done|by apply after_pause_all].
  - destruct (is_paused (vs !!! i)); [|by apply after_pause_all].
    by apply IH, controls_all.
Qed.

Lemma hook_all (d : pydict) (i : nat) (sl : list (list control_op))
  (vs : list VideoItem) :
  all_items P vs → all_items P (hook_store (video_progress_hook d i sl vs)).
Proof.
  intros Hall. unfold video_progress_hook.
  destruct (is_cancelled (vs !!! i)); [done|by apply pause_loop_all].
Qed.

Lemma run_calls_all (i : nat) (cs : list hook_call)
  (aft : list control_op) (out : option exn) (vs : list VideoItem) :
  all_items P vs → all_items P (download_store (run_calls i cs aft out vs)).
Proof.
  revert vs. induction cs as [|c cs IH]; intros vs Hall; simpl.
  - destruct out; simpl; by apply controls_all.
  - pose proof (hook_all (event c) i (sleeps c) (controls (before c) vs)
                  (controls_all (before c) vs Hall)) as Hh.
    destruct (video_progress_hook _ _ _ _) as [vs'|e vs'|vs'];
      simpl in *; [by apply IH|done|done].
Qed.

Lemma download_single_video_all (i : nat) (sc : script)
  (vs : list VideoItem) :
  all_items P vs →
  all_items P (single_store (download_single_video i sc vs)).
Proof.
  intros Hall. unfold download_single_video, ydl_download.
  pose proof (run_calls_all i (calls sc) (after sc) (outcome sc)
                (alter begin_download i vs)
                (alter_all begin_download i vs P_begin Hall)) as Hr.
  destruct (run_calls _ _ _ _ _) as [vs'|e vs'|vs']; simpl in *;
    [done| |done].
  apply alter_all; [|done]. intros k v. apply P_failed.
Qed.

Lemma run_loop_all (env : nat → script) (total : nat) (idxs : list nat)
  (st : loop_state) :
  all_items P (videos st) →
  all_items P (videos (run_loop env total idxs st)).
Proof.
  revert st. induction idxs as [|i idxs IH]; intros st Hall; [done|].
  unfold run_loop in *. simpl. apply IH.
  destruct (loop_body_videos env total st i) as [->| ->]; [done|].
  by apply download_single_video_all.
Qed.

Lemma thread_all (env : nat → script) (vs : list VideoItem) (bar : Q) :
  all_items P vs →
  all_items P (videos (_download_all_videos_thread env vs bar)).
Proof. intros Hall. by apply run_loop_all. Qed.

End ItemInvariant.

Lemma all_items_Forall (Q : VideoItem → Prop) (vs : list VideoItem) :
  all_items (λ _, Q) vs ↔ Forall Q vs.
Proof.
  unfold all_items. rewrite Forall_lookup. split.
  - intros Hall k v Hk. apply list_lookup_alt in Hk as [Hlt <-].
    by apply Hall.
  - intros Hall k Hk. apply (Hall k).
    by apply list_lookup_lookup_total_lt.
Qed.

(** A literal status is in a literal list of statuses. *)
Ltac status_listed := apply (bool_decide_unpack _); vm_compute; exact I.

Lemma hook_body_status_cases (d : pydict) (v : VideoItem) :
  status (hook_body d v).1 = status v ∨
  status (hook_body d v).1 = "completed".
Proof.
  unfold hook_body. destruct (d !! "status") as [ph|]; [|by left].
  repeat case_bool_decide; [| |by left].
  - left. apply on_downloading_keeps.
  - by right.
Qed.

Lemma handler_status_cases (f : VideoItem → VideoItem) (v : VideoItem) :
  handler f →
  (f v = v) ∨
  (status (f v) = "paused" ∧ is_paused (f v) = true) ∨
  (status (f v) = "downloading") ∨
  (status (f v) = "cancelled" ∧ is_cancelled (f v) = true).
Proof.
  intros Hf. destruct Hf; [by left| | | |];
    unfold toggle_video, pause_video, resume_video, cancel_video;
    repeat case_bool_decide; try (by left);
    try (right; left; done); try (right; right; left; done).
  destruct (status_in _ _); [|by left]. right. right. right. done.
Qed.

(** X14: the status of a video is always one of the six the program
    knows: if every video of the list has one of them when "Download
    All" starts, every video has one of them when the thread stops,
    whatever the downloads and the UI thread do. *)
Theorem statuses_stay_known (env : nat → script) (vs : list VideoItem)
  (bar : Q) :
  Forall known_status vs →
  Forall known_status (videos (_download_all_videos_thread env vs bar)).
Proof.
  intros Hall. apply all_items_Forall. apply thread_all.
  - intros _ f v Hf Hv. unfold known_status in *.
    destruct (handler_status_cases f v Hf) as [->|[[-> _]|[->|[-> _]]]];
      [done|status_listed..].
  - intros _ v _. unfold known_status. simpl. status_listed.
  - intros _ d v Hv. unfold known_status in *.
    destruct (hook_body_status_cases d v) as [->| ->]; [done|status_listed].
  - intros _ e v _. unfold known_status. simpl. status_listed.
  - by apply all_items_Forall.
Qed.

Lemma statuses_stay_known_witness :
  Forall known_status
    (videos (_download_all_videos_thread second_fails second_run 0)).
Proof.
  apply (statuses_stay_known second_fails second_run 0).
  repeat constructor; unfold known_status; status_listed.
Defined.

(** X15: flags and status stay in agreement: if in every video of the
    list a status ['paused'] comes with the pause flag and a status
    ['cancelled'] with the cancel flag when "Download All" starts, the
    same holds when the thread stops. *)
Theorem flags_stay_in_agreement (env : nat → script) (vs : list VideoItem)
  (bar : Q) :
  Forall flags_agree vs →
  Forall flags_agree (videos (_download_all_videos_thread env vs bar)).
Proof.
  intros Hall. apply all_items_Forall. apply thread_all.
  - intros _ f v Hf Hv. unfold flags_agree in *.
    destruct (handler_status_cases f v Hf)
      as [->|[[Hs Hp]|[Hs|[Hs Hc]]]]; [done|..];
      rewrite Hs; split; try done; discriminate.
  - intros _ v _. unfold flags_agree. simpl. split; discriminate.
  - intros _ d v [H1 H2]. unfold flags_agree.
    destruct (hook_body_flags d v) as [-> ->].
    destruct (hook_body_status_cases d v) as [->| ->]; [done|].
    split; discriminate.
  - intros _ e v _. unfold flags_agree. simpl. split; discriminate.
  - by apply all_items_Forall.
Qed.

Lemma flags_stay_in_agreement_witness :
  Forall flags_agree
    (videos (_download_all_videos_thread (λ _, cancel_script)
               three_pending 0)).
Proof.
  apply (flags_stay_in_agreement (λ _, cancel_script) three_pending 0).
  repeat constructor; vm_compute; discriminate.
Defined.

Lemma hook_body_identity (d : pydict) (v : VideoItem) :
  identity (hook_body d v).1 = identity v.
Proof.
  unfold hook_body. destruct (d !! "status") as [ph|]; [|done].
  repeat case_bool_decide; [|done|done].
  unfold on_downloading.
  destruct (py_gt0 _) as [e|[|]]; [done| |done].
  by destruct (py_percent _ _).
Qed.

(** X16: the download-all thread never adds, removes or reorders
    videos, and never changes what the analyzer gave them: the list has
    the same length when the thread stops, and at every position the id,
    title, URL, duration and thumbnail are those the video had. *)
Theorem loop_keeps_identities (env : nat → script) (vs : list VideoItem)
  (bar : Q) :
  length (videos (_download_all_videos_thread env vs bar)) = length vs ∧
  ∀ k, k < length vs →
       identity (videos (_download_all_videos_thread env vs bar) !!! k)
         = identity (vs !!! k).
Proof.
  assert (length (videos (_download_all_videos_thread env vs bar))
          = length vs) as Hl by apply (visit_length env vs bar (length vs)).
  split; [done|]. intros k Hk.
  apply (thread_all (λ k v, identity v = identity (vs !!! k))); [| | | | |lia].
  - intros j f v Hf <-.
    pose proof (handler_data f v Hf) as Hd. unfold data, identity in *.
    congruence.
  - intros j v <-. done.
  - intros j d v <-. apply hook_body_identity.
  - intros j e v <-. done.
  - intros j _. done.
Qed.

Lemma loop_keeps_identities_witness :
  identity (videos (_download_all_videos_thread second_fails
                      three_pending 0) !!! 1)
    = identity (three_pending !!! 1).
Proof.
  apply (proj2 (loop_keeps_identities second_fails three_pending 0)).
  vm_compute. lia.
Defined.

(** X13: a download changes, on the other videos of the list, nothing
    but what the control surface writes: their id, title, progress,
    speed, ETA, byte counters, error message and output file name are
    as before, whatever happens during the download. *)
Theorem download_leaves_other_videos (j k : nat) (sc : script)
  (vs : list VideoItem) :
  j ≠ k → k < length vs →
  data (single_store (download_single_video j sc vs) !!! k)
    = data (vs !!! k).
Proof.
  intros Hne Hk.
  apply (download_other (λ v, data v = data (vs !!! k))); [|done|done|done].
  intros f v Hf <-. by apply handler_data.
Qed.

Lemma download_leaves_other_videos_witness :
  data (single_store (download_single_video 0 cancel_script three_pending)
        !!! 2)
  = data (three_pending !!! 2).
Proof.
  apply (download_leaves_other_videos 0 2 cancel_script three_pending).
  - lia.
  - vm_compute. lia.
Defined.

(** ** Download-all loop: what it skips and what it counts *)

Lemma loop_body_skip (env : nat → script) (total : nat) (st : loop_state)
  (i : nat) :
  status_in (status (videos st !!! i)) ["completed"; "failed"] = true →
  loop_body env total st i = st.
Proof.
  intros Hs. unfold loop_body. rewrite Hs. by destruct (hung st).
Qed.

Lemma settled_inert (v : VideoItem) :
  status_in (status v) ["completed"; "failed"] = true → inert v.
Proof.
  unfold status_in, inert. intros Hs. apply bool_decide_eq_true_1 in Hs.
  apply elem_of_cons in Hs as [Hs|Hs].
  - rewrite Hs. split; discriminate.
  - apply list_elem_of_singleton in Hs. rewrite Hs. split; discriminate.
Qed.

Lemma settled_invariant (env : nat → script) (vs : list VideoItem)
  (bar : Q) (k n : nat) :
  k < length vs →
  status_in (status (vs !!! k)) ["completed"; "failed"] = true →
  videos (visit env vs bar n) !!! k = vs !!! k ∧
  Forall (λ ev, call_index ev ≠ k) (call_log (visit env vs bar n)).
Proof.
  intros Hk Hs. induction n as [|n [IHv IHl]]; [by split|].
  rewrite visit_S.
  destruct (decide (n = k)) as [->|Hne].
  - rewrite loop_body_skip by (by rewrite IHv). by split.
  - split.
    + destruct (loop_body_videos env (length vs) (visit env vs bar n) n)
        as [->| ->]; [done|].
      rewrite download_keeps_inert; [done|done| |].
      * by rewrite visit_length.
      * rewrite IHv. by apply settled_inert.
    + destruct (loop_body_log env (length vs) (visit env vs bar n) n)
        as (rest & -> & Hrest).
      apply Forall_app. split; [done|].
      eapply Forall_impl; [exact Hrest|]. intros ev ->. done.
Qed.

(** X17: a video that is ['completed'] or ['failed'] when "Download
    All" starts is never downloaded again and never modified: when the
    thread stops it is field for field what it was, and no call was
    made for its position. *)
Theorem settled_videos_untouched (env : nat → script)
  (vs : list VideoItem) (bar : Q) (k : nat) :
  k < length vs →
  status_in (status (vs !!! k)) ["completed"; "failed"] = true →
  videos (_download_all_videos_thread env vs bar) !!! k = vs !!! k ∧
  Forall (λ ev, call_index ev ≠ k)
    (call_log (_download_all_videos_thread env vs bar)).
Proof. intros Hk Hs. by apply (settled_invariant env vs bar k (length vs)). Qed.

Lemma settled_videos_untouched_witness :
  videos (_download_all_videos_thread second_fails second_run 0) !!! 1
    = second_run !!! 1.
Proof.
  apply (settled_videos_untouched second_fails second_run 0 1).
  - vm_compute. lia.
  - vm_compute. reflexivity.
Defined.

Lemma loop_body_counters (env : nat → script) (total : nat)
  (st : loop_state) (i : nat) :
  (completed (loop_body env total st i) = completed st ∧
   overall_progress (loop_body env total st i) = overall_progress st) ∨
  (completed (loop_body env total st i) = S (completed st) ∧
   overall_progress (loop_body env total st i)
     = overall_percent (S (completed st)) total).
Proof.
  unfold loop_body. destruct (hung st); [by left|].
  destruct (status_in _ _); [by left|].
  destruct (download_single_video _ _ _); [|by left].
  case_bool_decide; [by right|by left].
Qed.

Lemma counters_invariant (env : nat → script) (vs : list VideoItem)
  (bar : Q) (n : nat) :
  completed (visit env vs bar n) ≤ n ∧
  (completed (visit env vs bar n) = 0 →
   overall_progress (visit env vs bar n) = bar) ∧
  (0 < completed (visit env vs bar n) →
   overall_progress (visit env vs bar n)
     = overall_percent (completed (visit env vs bar n)) (length vs)).
Proof.
  induction n as [|n (IHc & IH0 & IHp)].
  - repeat split; try done. simpl. lia.
  - rewrite visit_S.
    destruct (loop_body_counters env (length vs) (visit env vs bar n) n)
      as [[-> ->]|[-> ->]].
    + split; [lia|]. split; [done|done].
    + split; [lia|]. split; [lia|done].
Qed.

Lemma overall_percent_bounds (c n : nat) :
  0 < c → c ≤ n →
  (0 < overall_percent c n)%Q ∧ (overall_percent c n <= 100)%Q.
Proof.
  intros Hc Hn. unfold overall_percent.
  destruct n as [|n]; [lia|].
  unfold Qlt, Qle, Qdiv, Qmult, Qinv, inject_Z. simpl.
  split; nia.
Qed.

(** X18: the loop counts at most one completion per video, so the count
    never exceeds the length of the list; the overall progress bar is
    left alone until the first completion and from then on shows
    [completed / total * 100], a value above 0 and at most 100. *)
Theorem progress_bar_follows_count (env : nat → script)
  (vs : list VideoItem) (bar : Q) :
  completed (_download_all_videos_thread env vs bar) ≤ length vs ∧
  (completed (_download_all_videos_thread env vs bar) = 0 →
   overall_progress (_download_all_videos_thread env vs bar) = bar) ∧
  (0 < completed (_download_all_videos_thread env vs bar) →
   overall_progress (_download_all_videos_thread env vs bar)
     = overall_percent (completed (_download_all_videos_thread env vs bar))
                       (length vs) ∧
   (0 < overall_progress (_download_all_videos_thread env vs bar))%Q ∧
   (overall_progress (_download_all_videos_thread env vs bar) <= 100)%Q).
Proof.
  destruct (counters_invariant env vs bar (length vs)) as (Hc & H0 & Hp).
  change (visit env vs bar (length vs))
    with (_download_all_videos_thread env vs bar) in *.
  split; [done|]. split; [done|]. intros Hpos.
  rewrite (Hp Hpos). split; [done|].
  by apply overall_percent_bounds.
Qed.

Lemma progress_bar_follows_count_witness :
  (0 < overall_progress
         (_download_all_videos_thread second_fails three_pending 0))%Q ∧
  (overall_progress
     (_download_all_videos_thread second_fails three_pending 0) <= 100)%Q.
Proof.
  apply (proj2 (proj2 (progress_bar_follows_count second_fails
                         three_pending 0))).
  vm_compute. lia.
Defined.

(** ** Progress callback: when it cannot block *)

Lemma control_never_pauses (op : control_op) (vs : list VideoItem)
  (i : nat) :
  i < length vs → never_pauses op = true →
  is_paused (vs !!! i) = false → is_paused (control op vs !!! i) = false.
Proof.
  intros Hi Hop Hp. destruct op as [item| | |]; try discriminate; simpl.
  - unfold resume_all_downloads.
    rewrite (list_lookup_total_fmap resume_video vs i Hi).
    unfold resume_video. by case_bool_decide.
  - by rewrite cancel_all_keeps_pause.
Qed.

Lemma controls_never_pause (ops : list control_op) (vs : list VideoItem)
  (i : nat) :
  i < length vs → Forall (λ op, never_pauses op = true) ops →
  is_paused (vs !!! i) = false → is_paused (controls ops vs !!! i) = false.
Proof.
  intros Hi Hops. revert vs Hi.
  induction Hops as [|op ops Hop _ IH]; intros vs Hi Hp; [done|].
  unfold controls in *. simpl.
  apply IH; [by rewrite control_length|by apply control_never_pauses].
Qed.

Lemma run_calls_never_blocked (i : nat) (cs : list hook_call)
  (aft : list control_op) (out : option exn) (vs : list VideoItem) :
  i < length vs → Forall call_not_paused cs →
  is_paused (vs !!! i) = false →
  ∀ vs', run_calls i cs aft out vs ≠ Blocked vs'.
Proof.
  intros Hi Hcs. revert vs Hi.
  induction Hcs as [|c cs Hb _ IH]; intros vs Hi Hp vs'; simpl.
  - by destruct out.
  - pose proof (controls_never_pause (before c) vs i Hi Hb Hp) as Hp1.
    pose proof (controls_length (before c) vs) as Hl.
    set (vs1 := controls (before c) vs) in *.
    unfold video_progress_hook.
    destruct (is_cancelled (vs1 !!! i)); [done|].
    assert (pause_loop (event c) i (sleeps c) vs1
            = after_pause (event c) i vs1) as ->
      by (destruct (sleeps c); simpl; by rewrite Hp1).
    unfold after_pause.
    pose proof (hook_body_flags (event c) (vs1 !!! i)) as [Hfp _].
    destruct (hook_body (event c) (vs1 !!! i)) as [v' [e|]]; [done|].
    simpl in Hfp. apply IH.
    + rewrite length_insert. lia.
    + rewrite list_lookup_total_insert_eq by lia. congruence.
Qed.

(** X19: the callback blocks only on a pause.  When the pause flag of
    the video is clear and the UI thread has since run only operations
    that set no pause flag ("Resume All", "Cancel All"), an invocation
    does not sleep: it raises at once if the video has been cancelled
    and handles its event otherwise, and it leaves the pause flag
    clear.  Hence, the flags being reset when a download starts, in a
    download during which no pause is requested before an invocation
    of the callback, no invocation blocks.  (How long the capability
    itself takes between two invocations is not in question here.) *)
Theorem callback_blocks_only_on_pause (d : pydict) (i : nat)
  (sl : list (list control_op)) (ops : list control_op)
  (vs : list VideoItem) :
  i < length vs →
  is_paused (vs !!! i) = false →
  Forall (λ op, never_pauses op = true) ops →
  video_progress_hook d i sl (controls ops vs)
    = (if is_cancelled (controls ops vs !!! i)
       then HookRaise (Exception "Download cancelled") (controls ops vs)
       else after_pause d i (controls ops vs)) ∧
  (∀ vs', video_progress_hook d i sl (controls ops vs) ≠ HookBlocked vs') ∧
  is_paused (hook_store (video_progress_hook d i sl (controls ops vs)) !!! i)
    = false ∧
  (∀ sc vs', Forall call_not_paused (calls sc) →
             ydl_download i sc (alter begin_download i vs) ≠ Blocked vs').
Proof.
  intros Hi Hp Hops.
  pose proof (controls_never_pause ops vs i Hi Hops Hp) as Hp1.
  pose proof (controls_length ops vs) as Hl.
  set (vs1 := controls ops vs) in *.
  assert (video_progress_hook d i sl vs1
          = (if is_cancelled (vs1 !!! i)
             then HookRaise (Exception "Download cancelled") vs1
             else after_pause d i vs1)) as Hhook.
  { unfold video_progress_hook. destruct (is_cancelled (vs1 !!! i)); [done|].
    destruct sl; simpl; by rewrite Hp1. }
  rewrite Hhook. split; [done|].
  pose proof (hook_body_flags d (vs1 !!! i)) as [Hfp _].
  split; [|split].
  - intros vs'. destruct (is_cancelled (vs1 !!! i)); [done|].
    unfold after_pause. by destruct (hook_body d (vs1 !!! i)) as [v' [e|]].
  - destruct (is_cancelled (vs1 !!! i)); [done|].
    unfold after_pause.
    destruct (hook_body d (vs1 !!! i)) as [v' [e|]]; simpl in *;
      rewrite list_lookup_total_insert_eq by lia; congruence.
  - intros sc vs' Hcs. unfold ydl_download.
    apply run_calls_never_blocked; [by rewrite length_alter|done|].
    by rewrite list_lookup_total_alter_eq.
Qed.

Lemma callback_blocks_only_on_pause_witness :
  video_progress_hook (downloading_event 20 100) 0 [[PauseAll]]
    (controls [ResumeAll; CancelAll] [begin_download (sample_item "a")])
  = HookRaise (Exception "Download cancelled")
      (controls [ResumeAll; CancelAll] [begin_download (sample_item "a")]).
Proof.
  apply (callback_blocks_only_on_pause (downloading_event 20 100) 0
           [[PauseAll]] [ResumeAll; CancelAll]
           [begin_download (sample_item "a")]).
  - vm_compute. lia.
  - reflexivity.
  - repeat constructor.
Defined.

(** ** Progress callback: a total that is not a number *)



(** ** Configuration store *)

(** X21: saving touches the configuration file and nothing else: every
    other file is as it was, and a later save replaces an earlier one.
    A save refused when the file is opened changes nothing.  A save
    that fails after the file has been opened for writing leaves the
    configuration file unreadable: whatever had been saved before is
    lost, and an instance that loads it keeps the path it has (a fresh
    one, the default).  In both cases the error is swallowed. *)
Theorem save_config_touches_one_file (a b : app_config)
  (fs : file_system) :
  (∀ name, name ≠ config_file a →
           files (save_config a fs) !! name = files fs !! name) ∧
  (config_file a = config_file b →
   save_config b (save_config a fs) = save_config b fs) ∧
  (on_write fs = OpenRefused → save_config a fs = fs) ∧
  (on_write fs = WriteRefused →
   files (save_config a fs) !! config_file a = Some NotAnObject ∧
   (config_file b = config_file a →
    load_config (save_config a fs) b = b)) ∧
  on_write (save_config a fs) = on_write fs.
Proof.
  unfold save_config. destruct (on_write fs) eqn:Hw; simpl.
  - repeat split; try done.
    + intros name Hne. by rewrite lookup_insert_ne.
    + intros Hab. by rewrite Hab, insert_insert_eq.
  - rewrite Hw. by repeat split.
  - repeat split; try done.
    + intros name Hne. by rewrite lookup_insert_ne.
    + intros Hab. by rewrite Hab, insert_insert_eq.
    + by rewrite lookup_insert_eq.
    + intros Hba. unfold load_config. simpl.
      by rewrite Hba, lookup_insert_eq.
Qed.

Lemma save_config_touches_one_file_witness :
  files (save_config
           (mkConfig "downloader_config.json" (PyStr "/data/b"))
           (mkFs {[ "downloader_config.json"
                      := JsonObject {[ "download_path" := PyStr "/data/a" ]} ]}
                 WriteRefused))
    !! "downloader_config.json" = Some NotAnObject ∧
  load_config
    (save_config
       (mkConfig "downloader_config.json" (PyStr "/data/b"))
       (mkFs {[ "downloader_config.json"
                  := JsonObject {[ "download_path" := PyStr "/data/a" ]} ]}
             WriteRefused))
    (mkConfig "downloader_config.json" (PyStr "/home/ann/Downloads"))
  = mkConfig "downloader_config.json" (PyStr "/home/ann/Downloads").
Proof.
  destruct (proj1 (proj2 (proj2 (proj2 (save_config_touches_one_file
              (mkConfig "downloader_config.json" (PyStr "/data/b"))
              (mkConfig "downloader_config.json" (PyStr "/home/ann/Downloads"))
              (mkFs {[ "downloader_config.json"
                         := JsonObject
                              {[ "download_path" := PyStr "/data/a" ]} ]}
                    WriteRefused))))) eq_refl) as [Hfile Hload].
  split; [exact Hfile|]. apply Hload. reflexivity.
Defined.

Lemma browse_all_app (p1 p2 : list string) (self : app_config)
  (fs : file_system) :
  browse_all (p1 ++ p2) self fs
    = browse_all p2 (browse_all p1 self fs).1 (browse_all p1 self fs).2.
Proof.
  unfold browse_all. rewrite foldl_app.
  by destruct (foldl _ (self, fs) p1).
Qed.

Lemma browse_invariant (paths : list string) (self : app_config)
  (fs : file_system) :
  writable fs = true →
  config_file (browse_all paths self fs).1 = config_file self ∧
  writable (browse_all paths self fs).2 = true ∧
  download_path (browse_all paths self fs).1
    = last_choice paths (download_path self) ∧
  (Forall (λ p, p = "") paths → browse_all paths self fs = (self, fs)) ∧
  (Exists (λ p, p ≠ "") paths →
   files (browse_all paths self fs).2 !! config_file self
     = Some (JsonObject
               {[ "download_path" := last_choice paths (download_path self) ]})).
Proof.
  intros Hw. induction paths as [|path paths IH] using rev_ind.
  - repeat split; try done. intros Hex. by apply Exists_nil in Hex.
  - destruct IH as (Hcf & Hwr & Hdp & Hnone & Hsome).
    rewrite browse_all_app. unfold last_choice in *. rewrite foldl_app.
    destruct (browse_all paths self fs) as [s1 f1] eqn:Hb.
    cbn [fst snd foldl] in *.
    change (browse_all [path] s1 f1) with (browse_path path s1 f1).
    unfold browse_path. destruct (truthy (PyStr path)) eqn:Ht.
    + cbn [fst snd config_file download_path].
      unfold save_config.
      rewrite (bool_decide_eq_true_1 _ Hwr).
      cbn [files on_write config_file download_path].
      repeat split; try done.
      * intros Hall. apply Forall_app in Hall as [_ Hall].
        apply Forall_cons in Hall as [-> _]. discriminate.
      * intros _. by rewrite Hcf, lookup_insert_eq.
    + cbn [fst snd].
      assert (path = "") as ->.
      { destruct (decide (path = "")) as [|Hne]; [done|].
        apply truthy_str in Hne. congruence. }
      repeat split; try done.
      * intros Hall. apply Forall_app in Hall as [Hall _]. by apply Hnone.
      * intros Hex. apply Exists_app in Hex as [Hex|Hex]; [by apply Hsome|].
        apply Exists_cons in Hex as [Hex|Hex]; [done|].
        by apply Exists_nil in Hex.
Qed.

(** X22: through any session of the folder browser (dialogs dismissed
    or answered, in any order) on a writable file system, the instance
    holds the last folder chosen; if a folder was chosen at all a fresh
    instance starts with that folder, and if every dialog was dismissed
    neither the instance nor the files have changed.  Closing the
    window then saves the folder the instance holds. *)
Theorem browse_session_persists (paths : list string) (downloads : string)
  (self : app_config) (vs : list VideoItem) (fs : file_system) :
  writable fs = true →
  config_file self = "downloader_config.json" →
  download_path (browse_all paths self fs).1
    = last_choice paths (download_path self) ∧
  (Exists (λ p, p ≠ "") paths →
   download_path (init downloads (browse_all paths self fs).2)
     = last_choice paths (download_path self)) ∧
  (Forall (λ p, p = "") paths → browse_all paths self fs = (self, fs)) ∧
  download_path
    (init downloads (on_closing (browse_all paths self fs).1 vs
                                (browse_all paths self fs).2).2)
    = last_choice paths (download_path self).
Proof.
  intros Hw Hcf.
  destruct (browse_invariant paths self fs Hw)
    as (Hcf' & Hwr & Hdp & Hnone & Hsome).
  split; [done|]. split; [|split; [done|]].
  - intros Hex. unfold init, load_config. simpl.
    rewrite <- Hcf, (Hsome Hex). simpl.
    unfold dict_get. by rewrite lookup_singleton_eq.
  - unfold on_closing, init. simpl. rewrite <- Hdp.
    apply load_after_save; [done|]. simpl. by rewrite Hcf', Hcf.
Qed.

Lemma browse_session_persists_witness :
  download_path
    (init "/home/ann/Downloads"
       (browse_all ["/data/a"; ""; "/data/b"; ""]
          (mkConfig "downloader_config.json" (PyStr "/home/ann/Downloads"))
          (mkFs ∅ Written)).2)
  = PyStr "/data/b".
Proof.
  destruct (browse_session_persists ["/data/a"; ""; "/data/b"; ""]
              "/home/ann/Downloads"
              (mkConfig "downloader_config.json" (PyStr "/home/ann/Downloads"))
              [] (mkFs ∅ Written)) as (_ & H & _); [reflexivity..|].
  rewrite H.
  - vm_compute. reflexivity.
  - apply Exists_cons. left. discriminate.
Defined.

(** ** From analysis to download *)

(** X23: analysis and download compose: when the analysis of a result
    leaves a non-empty list and every download then succeeds, "Download
    All" starts the thread, the thread finishes with every analysed
    video completed and the progress bar at 100, and the videos are, in
    order, those the analysis produced. *)
Theorem analysed_then_downloaded (info : option info_dict)
  (env : nat → script) (bar : Q) :
  (_process_analysis_results info).1 ≠ [] →
  (∀ i, i < length (_process_analysis_results info).1 →
        returns_finished env (_process_analysis_results info).1 bar i) →
  ∃ r, download_all_videos env (_process_analysis_results info).1 bar
         = Some r ∧
       hung r = false ∧
       Forall (λ v, status v = "completed") (videos r) ∧
       (overall_progress r == 100)%Q ∧
       identity <$> videos r
         = identity <$> (_process_analysis_results info).1.
Proof.
  set (vs := (_process_analysis_results info).1).
  intros Hne Hsucc.
  exists (_download_all_videos_thread env vs bar).
  split; [unfold download_all_videos; by destruct vs|].
  assert (0 < length vs) as Hpos by (destruct vs; simpl; [done|lia]).
  assert (∀ i, i < length vs → to_download (vs !!! i)) as Hfresh.
  { intros i Hi.
    pose proof (proj2 (analysis_items_fresh info)) as Hall.
    rewrite Forall_lookup in Hall. apply (Hall i).
    by apply list_lookup_lookup_total_lt. }
  destruct (all_succeed_invariant env vs bar (length vs) Hsucc Hfresh)
    as (Hh & Hc & Hdone & _ & Hbar); [done|].
  destruct (loop_keeps_identities env vs bar) as [Hl Hid].
  change (visit env vs bar (length vs))
    with (_download_all_videos_thread env vs bar) in *.
  split; [done|]. split; [|split].
  - apply Forall_lookup. intros j v Hj.
    apply list_lookup_alt in Hj as [Hlt <-]. apply Hdone. lia.
  - rewrite (Hbar Hpos). by apply overall_percent_all.
  - apply list_eq_same_length with (length vs);
      [by rewrite length_fmap|by rewrite length_fmap|].
    intros i x y Hi Hx Hy.
    rewrite list_lookup_fmap in Hx, Hy.
    rewrite (list_lookup_lookup_total_lt _ i) in Hx by lia.
    rewrite (list_lookup_lookup_total_lt vs i) in Hy by lia.
    simpl in *. inversion Hx. inversion Hy. by apply Hid.
Qed.

Lemma analysed_then_downloaded_witness :
  ∃ r, download_all_videos (λ _, ok_script)
         (_process_analysis_results (Some gap_playlist)).1 0 = Some r ∧
       Forall (λ v, status v = "completed") (videos r) ∧
       (overall_progress r == 100)%Q.
Proof.
  destruct (analysed_then_downloaded (Some gap_playlist) (λ _, ok_script) 0)
    as (r & H1 & _ & H2 & H3 & _).
  - vm_compute. discriminate.
  - intros i Hi. split.
    + apply Exists_cons. right. apply Exists_cons. left.
      vm_compute. reflexivity.
    + vm_compute in Hi. destruct i as [|[|i]]; [| |lia];
        eexists; vm_compute; reflexivity.
  - exists r. split; [exact H1|]. split; [exact H2|exact H3].
Defined.

(** ** Download-all loop: the count is exact *)

Lemma count_completed_cons (v : VideoItem) (vs : list VideoItem) :
  count_completed (v :: vs) = completed_bit v + count_completed vs.
Proof.
  unfold count_completed, completed_bit. rewrite filter_cons.
  case_decide; by case_bool_decide.
Qed.

Lemma count_completed_ext (vs vs' : list VideoItem) :
  length vs' = length vs →
  (∀ k, k < length vs →
        completed_bit (vs' !!! k) = completed_bit (vs !!! k)) →
  count_completed vs' = count_completed vs.
Proof.
  revert vs'. induction vs as [|v vs IH]; intros [|v' vs'] Hl Hbits;
    try done.
  rewrite !count_completed_cons. simpl in Hl.
  rewrite (IH vs') by (lia || (intros k Hk; apply (Hbits (S k)); simpl; lia)).
  f_equal. apply (Hbits 0). simpl. lia.
Qed.

Lemma count_completed_change (i : nat) (vs vs' : list VideoItem) :
  length vs' = length vs → i < length vs →
  (∀ k, k ≠ i → k < length vs →
        completed_bit (vs' !!! k) = completed_bit (vs !!! k)) →
  count_completed vs' + completed_bit (vs !!! i)
    = count_completed vs + completed_bit (vs' !!! i).
Proof.
  revert i vs'. induction vs as [|v vs IH]; intros i [|v' vs'] Hl Hi Hbits;
    simpl in *; try lia.
  rewrite !count_completed_cons. destruct i as [|i].
  - simpl. rewrite (count_completed_ext vs vs'); [lia|lia|].
    intros k Hk. apply (Hbits (S k)); lia.
  - simpl. pose proof (Hbits 0) as H0. simpl in H0. rewrite H0 by lia.
    pose proof (IH i vs') as Hrec.
    rewrite <- Nat.add_assoc, Hrec; [lia|lia|lia|].
    intros k Hne Hk. apply (Hbits (S k)); lia.
Qed.

Lemma handler_completed_bit (f : VideoItem → VideoItem) (v : VideoItem) :
  handler f → completed_bit (f v) = completed_bit v.
Proof.
  intros Hf. destruct (decide (status v = "completed")) as [Hs|Hs].
  - by rewrite (handler_inert f v Hf (completed_inert v Hs)).
  - unfold completed_bit. rewrite (bool_decide_eq_false_2 _ Hs).
    destruct (handler_status_cases f v Hf) as [->|[[Hn _]|[Hn|[Hn _]]]];
      [by rewrite bool_decide_eq_false_2|..];
      rewrite Hn; by rewrite bool_decide_eq_false_2.
Qed.

Lemma count_invariant (env : nat → script) (vs : list VideoItem)
  (bar : Q) (n : nat) :
  n ≤ length vs →
  hung (visit env vs bar n) = false →
  count_completed (videos (visit env vs bar n))
    = count_completed vs + completed (visit env vs bar n).
Proof.
  induction n as [|n IH]; intros Hn; [simpl; lia|].
  rewrite visit_S. unfold loop_body.
  destruct (hung (visit env vs bar n)) eqn:Hh; [congruence|].
  specialize (IH ltac:(lia) eq_refl).
  destruct (status_in _ _) eqn:Hs; [by intros _|].
  pose proof (visit_length env vs bar n) as Hl.
  pose proof (download_single_video_length n (env n)
                (videos (visit env vs bar n))) as Hl'.
  assert (∀ k, k ≠ n → k < length (videos (visit env vs bar n)) →
            completed_bit
              (single_store (download_single_video n (env n)
                               (videos (visit env vs bar n))) !!! k)
            = completed_bit (videos (visit env vs bar n) !!! k)) as Hbits.
  { intros k Hne Hk.
    apply (download_other
             (λ v, completed_bit v
                   = completed_bit (videos (visit env vs bar n) !!! k)));
      [|done|done|done].
    intros f v Hf <-. by apply handler_completed_bit. }
  assert (completed_bit (videos (visit env vs bar n) !!! n) = 0) as Hb0.
  { unfold completed_bit. rewrite bool_decide_eq_false_2; [done|].
    intros Hc. rewrite Hc in Hs. vm_compute in Hs. discriminate. }
  pose proof (count_completed_change n (videos (visit env vs bar n))
                (single_store (download_single_video n (env n)
                                 (videos (visit env vs bar n))))
                Hl' ltac:(lia) Hbits) as Hch.
  rewrite Hb0 in Hch.
  destruct (download_single_video _ _ _) as [vs'|vs']; simpl in *;
    [|intros Hf; discriminate Hf].
  unfold completed_bit in Hch.
  case_bool_decide; simpl; intros _; lia.
Qed.

(** X24: the count the thread reports is exact: when the loop reaches
    the end of the list, the number of completed videos in the list is
    the number completed before the run plus the count of the run,
    whatever the control surface did meanwhile. *)
Theorem reported_count_is_exact (env : nat → script) (vs : list VideoItem)
  (bar : Q) :
  hung (_download_all_videos_thread env vs bar) = false →
  count_completed (videos (_download_all_videos_thread env vs bar))
    = count_completed vs + completed (_download_all_videos_thread env vs bar).
Proof. intros Hh. by apply (count_invariant env vs bar (length vs)). Qed.

Lemma reported_count_is_exact_witness :
  count_completed (videos (_download_all_videos_thread second_fails
                             half_done 0))
  = count_completed half_done
    + completed (_download_all_videos_thread second_fails half_done 0).
Proof.
  apply (reported_count_is_exact second_fails half_done 0).
  vm_compute. reflexivity.
Defined.
